(** * Crestron XSIG server: a shallow embedding of [crestron_xsig/server.py]

    The development follows the Python module top to bottom: the constants,
    the packed frames built by the [send_command] closures, the expressions
    the read loop of [handle_connection] uses to take frames apart, the
    [CrestronServer] object as a record threaded through a small
    state-and-exception monad, and then the properties of the protocol
    engine.

    Conventions.
    - Python [int] is [Z]; [&], [|], [~], [<<], [>>] are [Z.land], [Z.lor],
      [Z.lnot], [Z.shiftl], [Z.shiftr] (two's complement, unbounded);
      the binary masks of the source are written in hexadecimal.
    - A byte string is a [list Z] of values in 0..255; [struct.pack] with
      format [B] raises [struct.error] outside that range.
    - A Python [str] is the list of its code points.
    - A reading of [time.time()] is an integer number of microseconds since
      the epoch, so the 1.0 s window is 1000000 and the 0.1 s debounce is
      100000.
    - One coroutine runs at a time: [handle_connection], the setters, the
      getters and the queued closures are modelled each on its own, from
      any state of the server object, without interleaving at [await]. *)

From Stdlib Require Import ZArith Lia Bool List.
From stdpp Require Import base gmap strings list pretty sorting.

Local Open Scope Z_scope.

(** ** Constants ([const.py] and the head of [server.py]) *)

Definition MAX_DIGITAL_JOIN : Z := 65535.
Definition MAX_ANALOG_JOIN : Z := 65535.
Definition CMD_UPDATE_REQUEST : list Z := [0xFD].
Definition MAX_QUEUE_SIZE : nat := 100.
Definition MAX_JOIN_UPDATES : nat := 1000.
Definition JOIN_UPDATE_WINDOW : Z := 1000000.
Definition SYNC_DEBOUNCE : Z := 100000.

(** ** Frame codec *)

Module Codec.

(** [struct.pack] with a format made of [B] fields only. *)
Definition is_byte (x : Z) : bool := (0 <=? x) && (x <=? 255).

Definition pack_B (fields : list Z) : option (list Z) :=
  if forallb is_byte fields then Some fields else None.

(** The two bytes built by [set_digital.send_command]:
    [0b10000000 | (~value << 5 & 0b00100000) | (join - 1) >> 7] and
    [(join - 1) & 0b01111111]. *)
Definition digital_b0 (join : Z) (value : bool) : Z :=
  Z.lor (Z.lor 0x80
               (Z.land (Z.shiftl (Z.lnot (Z.b2z value)) 5) 0x20))
        (Z.shiftr (join - 1) 7).

Definition digital_b1 (join : Z) : Z := Z.land (join - 1) 0x7F.

Definition digital_frame (join : Z) (value : bool) : option (list Z) :=
  pack_B [digital_b0 join value; digital_b1 join].

(** The four bytes built by [set_analog.send_command]. *)
Definition analog_b0 (join value : Z) : Z :=
  Z.lor (Z.lor 0xC0 (Z.land (Z.shiftr value 10) 0x30))
        (Z.shiftr (join - 1) 7).

Definition analog_b1 (join : Z) : Z := Z.land (join - 1) 0x7F.
Definition analog_b2 (value : Z) : Z := Z.land (Z.shiftr value 7) 0x7F.
Definition analog_b3 (value : Z) : Z := Z.land value 0x7F.

Definition analog_frame (join value : Z) : option (list Z) :=
  pack_B [analog_b0 join value; analog_b1 join;
          analog_b2 value; analog_b3 value].

(** The header built by [set_serial.send_command]. *)
Definition serial_header (join : Z) : option (list Z) :=
  pack_B [Z.lor 0xC8 (Z.shiftr (join - 1) 7);
          Z.land (join - 1) 0x7F].

(** The tests of the read loop on the first two bytes, in the order of the
    [if] / [elif] chain. *)
Definition is_digital (b0 b1 : Z) : bool :=
  (Z.land b0 0xC0 =? 0x80) && (Z.land b1 0x80 =? 0).

Definition is_analog (b0 b1 : Z) : bool :=
  (Z.land b0 0xC8 =? 0xC0) && (Z.land b1 0x80 =? 0).

Definition is_serial (b0 b1 : Z) : bool :=
  (Z.land b0 0xF8 =? 0xC8) && (Z.land b1 0x80 =? 0).

(** The expressions of the read loop that take a frame apart. *)
Definition digital_join (b0 b1 : Z) : Z :=
  Z.lor (Z.shiftl (Z.land b0 0x1F) 7) b1 + 1.

Definition digital_value (b0 : Z) : Z :=
  Z.land (Z.shiftr (Z.lnot b0) 5) 1.

Definition analog_join (b0 b1 : Z) : Z :=
  Z.lor (Z.shiftl (Z.land b0 0x07) 7) b1 + 1.

Definition analog_value (b0 b2 b3 : Z) : Z :=
  Z.lor (Z.lor (Z.shiftl (Z.land b0 0x30) 10) (Z.shiftl b2 7)) b3.

Definition serial_join (b0 b1 : Z) : Z :=
  Z.lor (Z.shiftl (Z.land b0 0x07) 7) b1 + 1.

End Codec.

(** ** Python values, strings and exceptions *)

(** The values a [JoinState] holds and a callback receives. *)
Inductive pyval :=
  | PyNone
  | PyBool (b : bool)
  | PyInt (n : Z)
  | PyStr (s : list Z).

(** A string literal of the source, as code points. *)
Definition lit (s : string) : list Z :=
  map (fun a => Z.of_N (Ascii.N_of_ascii a)) (String.list_ascii_of_string s).

(** [str(n)] for an [int]. *)
Definition str (n : Z) : list Z := lit (pretty n).

(** Python's [==]: [bool] is a subtype of [int], so [False == 0]. *)
Definition py_eq (x y : pyval) : bool :=
  match x, y with
  | PyNone, PyNone => true
  | PyBool a, PyBool b => eqb a b
  | PyBool a, PyInt n | PyInt n, PyBool a => Z.b2z a =? n
  | PyInt m, PyInt n => m =? n
  | PyStr s, PyStr t => bool_decide (s = t)
  | _, _ => false
  end.

Definition truthy (x : pyval) : bool :=
  match x with
  | PyNone => false
  | PyBool b => b
  | PyInt n => negb (n =? 0)
  | PyStr s => negb (bool_decide (s = []))
  end.

(** [x or y]. *)
Definition py_or (x y : pyval) : pyval := if truthy x then x else y.

Module Utf8.

(** [str.encode()]: UTF-8, strict; a surrogate or a value that is no code
    point raises [UnicodeEncodeError] ([None]). *)
Definition cont (x : Z) : Z := Z.lor 0x80 (Z.land x 0x3F).

Definition encode_cp (c : Z) : option (list Z) :=
  if c <? 0 then None
  else if c <? 0x80 then Some [c]
  else if c <? 0x800 then Some [Z.lor 0xC0 (Z.shiftr c 6); cont c]
  else if c <? 0x10000 then
    if (0xD800 <=? c) && (c <=? 0xDFFF) then None
    else Some [Z.lor 0xE0 (Z.shiftr c 12); cont (Z.shiftr c 6); cont c]
  else if c <? 0x110000 then
    Some [Z.lor 0xF0 (Z.shiftr c 18); cont (Z.shiftr c 12);
          cont (Z.shiftr c 6); cont c]
  else None.

Fixpoint encode (s : list Z) : option (list Z) :=
  match s with
  | [] => Some []
  | c :: s' =>
      match encode_cp c, encode s' with
      | Some bs, Some rest => Some (bs ++ rest)
      | _, _ => None
      end
  end.

(** [bytes.decode("utf-8")]: strict; a stray or missing continuation byte,
    an overlong form, a surrogate or a value above U+10FFFF raises
    [UnicodeDecodeError] ([None]). *)
Definition is_cont (b : Z) : bool := Z.land b 0xC0 =? 0x80.
Definition low6 (b : Z) : Z := Z.land b 0x3F.

Fixpoint decode (bs : list Z) : option (list Z) :=
  match bs with
  | [] => Some []
  | b0 :: r0 =>
      if b0 <? 0x80 then option_map (cons b0) (decode r0)
      else if Z.land b0 0xE0 =? 0xC0 then
        match r0 with
        | b1 :: r1 =>
            let c := Z.lor (Z.shiftl (Z.land b0 0x1F) 6) (low6 b1) in
            if is_cont b1 && (0x80 <=? c)
            then option_map (cons c) (decode r1) else None
        | _ => None
        end
      else if Z.land b0 0xF0 =? 0xE0 then
        match r0 with
        | b1 :: b2 :: r2 =>
            let c := Z.lor (Z.lor (Z.shiftl (Z.land b0 0x0F) 12)
                                  (Z.shiftl (low6 b1) 6)) (low6 b2) in
            if is_cont b1 && is_cont b2 && (0x800 <=? c)
               && negb ((0xD800 <=? c) && (c <=? 0xDFFF))
            then option_map (cons c) (decode r2) else None
        | _ => None
        end
      else if Z.land b0 0xF8 =? 0xF0 then
        match r0 with
        | b1 :: b2 :: b3 :: r3 =>
            let c := Z.lor (Z.lor (Z.lor (Z.shiftl (Z.land b0 0x07) 18)
                                         (Z.shiftl (low6 b1) 12))
                                  (Z.shiftl (low6 b2) 6)) (low6 b3) in
            if is_cont b1 && is_cont b2 && is_cont b3
               && (0x10000 <=? c) && (c <? 0x110000)
            then option_map (cons c) (decode r3) else None
        | _ => None
        end
      else None
  end.

End Utf8.

(** Exceptions.  [ConnectionError msg (Some e)] is
    [raise ConnectionError(f"{msg}{e}") from e]; [LibraryError] stands for
    the exceptions of [struct], [asyncio] and the codecs, whose text is not
    modelled. *)
#[warnings="-register-all"]
Inductive exn :=
  | ValueError (msg : string)
  | HomeAssistantError (msg : string)
  | ConnectionError (msg : string) (cause : option exn)
  | LibraryError (cls : string).

(** ** The server object *)

Module JoinState.

(** [JoinState.__init__]; the [callbacks] set and the [lock] are never used
    by the server and are left out. *)
Record t := mk { value : pyval; last_update : Z; update_count : Z }.

Definition init : t :=
  {| value := PyBool false; last_update := 0; update_count := 0 |}.

End JoinState.

(** The transport side of the accepted connection: whether it is closing,
    and whether the peer has gone so that [drain()] raises. *)
Record StreamWriter := { is_closing : bool; drain_fails : bool }.

(** The closures put on the command queue, with what they capture. *)
Inductive command :=
  | send_digital (join : Z) (value : bool)
  | send_analog (join value : Z)
  | send_serial (join : Z) (s : list Z).

Definition callback := nat.

(** One call of [_notify_callbacks], with the callbacks it invoked. *)
Record notification :=
  { n_join_id : string; n_value : pyval; n_recipients : list callback }.

(** The fields of [CrestronServer] the modelled methods read or write.
    [wire] and [notified] are histories kept for the statements: the bytes
    handed to [writer.write], and the calls of [_notify_callbacks]. *)
Record CrestronServer := mkServer {
  _writer : option StreamWriter;
  _available : bool;
  _command_queue : list command;
  _command_event : bool;
  _digital : gmap Z JoinState.t;
  _analog : gmap Z JoinState.t;
  _serial : gmap Z JoinState.t;
  _join_update_times : gmap string (list Z);
  _join_callbacks : gmap string (gset callback);
  _global_callbacks : gset callback;
  _sync_all_joins_callback : option bool;
  _initial_sync_received : bool;
  _initial_sync_event : bool;
  _last_sync_request : Z;
  wire : list Z;
  notified : list notification
}.

(** [CrestronServer.__init__]. *)
Definition __init__ : CrestronServer :=
  {| _writer := None; _available := false; _command_queue := [];
     _command_event := false; _digital := ∅; _analog := ∅; _serial := ∅;
     _join_update_times := ∅; _join_callbacks := ∅; _global_callbacks := ∅;
     _sync_all_joins_callback := None; _initial_sync_received := false;
     _initial_sync_event := false; _last_sync_request := 0;
     wire := []; notified := [] |}.

(** Field assignments, [self.f = x]. *)
Definition set_writer (x : option StreamWriter)
  (self : CrestronServer) : CrestronServer :=
  mkServer x (_available self) (_command_queue self) (_command_event self)
    (_digital self) (_analog self) (_serial self) (_join_update_times self)
    (_join_callbacks self) (_global_callbacks self)
    (_sync_all_joins_callback self) (_initial_sync_received self)
    (_initial_sync_event self) (_last_sync_request self) (wire self)
    (notified self).

Definition set_available (x : bool) (self : CrestronServer) : CrestronServer :=
  mkServer (_writer self) x (_command_queue self) (_command_event self)
    (_digital self) (_analog self) (_serial self) (_join_update_times self)
    (_join_callbacks self) (_global_callbacks self)
    (_sync_all_joins_callback self) (_initial_sync_received self)
    (_initial_sync_event self) (_last_sync_request self) (wire self)
    (notified self).

Definition set_command_queue (x : list command)
  (self : CrestronServer) : CrestronServer :=
  mkServer (_writer self) (_available self) x (_command_event self)
    (_digital self) (_analog self) (_serial self) (_join_update_times self)
    (_join_callbacks self) (_global_callbacks self)
    (_sync_all_joins_callback self) (_initial_sync_received self)
    (_initial_sync_event self) (_last_sync_request self) (wire self)
    (notified self).

Definition set_command_event (x : bool)
  (self : CrestronServer) : CrestronServer :=
  mkServer (_writer self) (_available self) (_command_queue self) x
    (_digital self) (_analog self) (_serial self) (_join_update_times self)
    (_join_callbacks self) (_global_callbacks self)
    (_sync_all_joins_callback self) (_initial_sync_received self)
    (_initial_sync_event self) (_last_sync_request self) (wire self)
    (notified self).

Definition set_digital_tbl (x : gmap Z JoinState.t)
  (self : CrestronServer) : CrestronServer :=
  mkServer (_writer self) (_available self) (_command_queue self)
    (_command_event self) x (_analog self) (_serial self)
    (_join_update_times self) (_join_callbacks self)
    (_global_callbacks self) (_sync_all_joins_callback self)
    (_initial_sync_received self) (_initial_sync_event self)
    (_last_sync_request self) (wire self) (notified self).

Definition set_analog_tbl (x : gmap Z JoinState.t)
  (self : CrestronServer) : CrestronServer :=
  mkServer (_writer self) (_available self) (_command_queue self)
    (_command_event self) (_digital self) x (_serial self)
    (_join_update_times self) (_join_callbacks self)
    (_global_callbacks self) (_sync_all_joins_callback self)
    (_initial_sync_received self) (_initial_sync_event self)
    (_last_sync_request self) (wire self) (notified self).

Definition set_serial_tbl (x : gmap Z JoinState.t)
  (self : CrestronServer) : CrestronServer :=
  mkServer (_writer self) (_available self) (_command_queue self)
    (_command_event self) (_digital self) (_analog self) x
    (_join_update_times self) (_join_callbacks self)
    (_global_callbacks self) (_sync_all_joins_callback self)
    (_initial_sync_received self) (_initial_sync_event self)
    (_last_sync_request self) (wire self) (notified self).

Definition set_join_update_times (x : gmap string (list Z))
  (self : CrestronServer) : CrestronServer :=
  mkServer (_writer self) (_available self) (_command_queue self)
    (_command_event self) (_digital self) (_analog self) (_serial self) x
    (_join_callbacks self) (_global_callbacks self)
    (_sync_all_joins_callback self) (_initial_sync_received self)
    (_initial_sync_event self) (_last_sync_request self) (wire self)
    (notified self).

Definition set_join_callbacks (x : gmap string (gset callback))
  (self : CrestronServer) : CrestronServer :=
  mkServer (_writer self) (_available self) (_command_queue self)
    (_command_event self) (_digital self) (_analog self) (_serial self)
    (_join_update_times self) x (_global_callbacks self)
    (_sync_all_joins_callback self) (_initial_sync_received self)
    (_initial_sync_event self) (_last_sync_request self) (wire self)
    (notified self).

Definition set_global_callbacks (x : gset callback)
  (self : CrestronServer) : CrestronServer :=
  mkServer (_writer self) (_available self) (_command_queue self)
    (_command_event self) (_digital self) (_analog self) (_serial self)
    (_join_update_times self) (_join_callbacks self) x
    (_sync_all_joins_callback self) (_initial_sync_received self)
    (_initial_sync_event self) (_last_sync_request self) (wire self)
    (notified self).

Definition set_sync_all_joins_callback (x : option bool)
  (self : CrestronServer) : CrestronServer :=
  mkServer (_writer self) (_available self) (_command_queue self)
    (_command_event self) (_digital self) (_analog self) (_serial self)
    (_join_update_times self) (_join_callbacks self)
    (_global_callbacks self) x (_initial_sync_received self)
    (_initial_sync_event self) (_last_sync_request self) (wire self)
    (notified self).

Definition set_initial_sync_received (x : bool)
  (self : CrestronServer) : CrestronServer :=
  mkServer (_writer self) (_available self) (_command_queue self)
    (_command_event self) (_digital self) (_analog self) (_serial self)
    (_join_update_times self) (_join_callbacks self)
    (_global_callbacks self) (_sync_all_joins_callback self) x
    (_initial_sync_event self) (_last_sync_request self) (wire self)
    (notified self).

Definition set_initial_sync_event (x : bool)
  (self : CrestronServer) : CrestronServer :=
  mkServer (_writer self) (_available self) (_command_queue self)
    (_command_event self) (_digital self) (_analog self) (_serial self)
    (_join_update_times self) (_join_callbacks self)
    (_global_callbacks self) (_sync_all_joins_callback self)
    (_initial_sync_received self) x (_last_sync_request self) (wire self)
    (notified self).

Definition set_last_sync_request (x : Z)
  (self : CrestronServer) : CrestronServer :=
  mkServer (_writer self) (_available self) (_command_queue self)
    (_command_event self) (_digital self) (_analog self) (_serial self)
    (_join_update_times self) (_join_callbacks self)
    (_global_callbacks self) (_sync_all_joins_callback self)
    (_initial_sync_received self) (_initial_sync_event self) x (wire self)
    (notified self).

Definition set_wire (x : list Z) (self : CrestronServer) : CrestronServer :=
  mkServer (_writer self) (_available self) (_command_queue self)
    (_command_event self) (_digital self) (_analog self) (_serial self)
    (_join_update_times self) (_join_callbacks self)
    (_global_callbacks self) (_sync_all_joins_callback self)
    (_initial_sync_received self) (_initial_sync_event self)
    (_last_sync_request self) x (notified self).

Definition set_notified (x : list notification)
  (self : CrestronServer) : CrestronServer :=
  mkServer (_writer self) (_available self) (_command_queue self)
    (_command_event self) (_digital self) (_analog self) (_serial self)
    (_join_update_times self) (_join_callbacks self)
    (_global_callbacks self) (_sync_all_joins_callback self)
    (_initial_sync_received self) (_initial_sync_event self)
    (_last_sync_request self) (wire self) x.

(** ** A state-and-exception monad for the method bodies

    A method runs on the server object and either returns, raises (the
    assignments made before the [raise] stay), or is parked at an [await]
    that cannot complete in this state ([Queue.put] on a full queue). *)

Inductive outcome (A : Type) :=
  | Return (a : A) (self : CrestronServer)
  | Raise (e : exn) (self : CrestronServer)
  | Suspend (self : CrestronServer).
Arguments Return {A} a self.
Arguments Raise {A} e self.
Arguments Suspend {A} self.

Definition M (A : Type) : Type := CrestronServer -> outcome A.

Definition ret {A} (a : A) : M A := fun self => Return a self.
Definition raise {A} (e : exn) : M A := fun self => Raise e self.
Definition bind {A B} (m : M A) (k : A -> M B) : M B :=
  fun self =>
    match m self with
    | Return a self' => k a self'
    | Raise e self' => Raise e self'
    | Suspend self' => Suspend self'
    end.
Definition get : M CrestronServer := fun self => Return self self.
Definition assign (f : CrestronServer -> CrestronServer) : M unit :=
  fun self => Return tt (f self).

(** [try: body / except Exception as err: handler err]. *)
Definition try_except {A} (body : M A) (handler : exn -> M A) : M A :=
  fun self =>
    match body self with
    | Raise e self' => handler e self'
    | r => r
    end.

Notation "'let*' x ':=' m 'in' k" := (bind m (fun x => k))
  (at level 10, x pattern, m at level 100, k at level 200).
Notation "m '>>' k" := (bind m (fun _ => k))
  (at level 100, k at level 200, right associativity).

(** The state an outcome leaves behind. *)
Definition final {A} (r : outcome A) : CrestronServer :=
  match r with Return _ s | Raise _ s | Suspend s => s end.

(** [collections.defaultdict]: [d[k]] inserts the default for a missing
    key and yields it. *)
Definition dd_get {K V} `{Countable K} (dflt : V) (k : K) (d : gmap K V)
  : V * gmap K V :=
  match d !! k with
  | Some v => (v, d)
  | None => (dflt, <[k := dflt]> d)
  end.

(** ** Methods of [CrestronServer] *)

(** The [available] property. *)
Definition available (self : CrestronServer) : bool :=
  _available self &&
  match _writer self with
  | Some w => negb (is_closing w)
  | None => false
  end.

Definition _validate_join (join : Z) (join_type : string) : M unit :=
  if String.eqb join_type "d"
     && negb ((0 <? join) && (join <=? MAX_DIGITAL_JOIN))
  then raise (ValueError ("Invalid join number: Digital join " +:+ pretty join
                          +:+ " exceeds maximum " +:+ pretty MAX_DIGITAL_JOIN))
  else if String.eqb join_type "a"
          && negb ((0 <? join) && (join <=? MAX_ANALOG_JOIN))
  then raise (ValueError ("Invalid join number: Analog join " +:+ pretty join
                          +:+ " exceeds maximum " +:+ pretty MAX_ANALOG_JOIN))
  else ret tt.

(** The [while updates and now - updates[0] > JOIN_UPDATE_WINDOW] loop. *)
Fixpoint expire (now : Z) (updates : list Z) : list Z :=
  match updates with
  | t :: rest =>
      if JOIN_UPDATE_WINDOW <? now - t then expire now rest else updates
  | [] => []
  end.

(** [now] is the reading of [time.time()]. *)
Definition _check_rate_limit (join_id : string) (now : Z) : M bool :=
  let* self := get in
  let '(updates, times) := dd_get [] join_id (_join_update_times self) in
  let updates := expire now updates in
  if (MAX_JOIN_UPDATES <=? length updates)%nat
  then assign (set_join_update_times (<[join_id := updates]> times)) >>
       ret false
  else assign (set_join_update_times (<[join_id := updates ++ [now]]> times)) >>
       ret true.

(** [_notify_callbacks] swallows every exception of a callback and every
    time-out; the callbacks are taken as observers that do not call back
    into the server. *)
Definition _notify_callbacks (join_id : string) (v : pyval) : M unit :=
  assign (fun self =>
    let joined := match _join_callbacks self !! join_id with
                  | Some cbs => elements cbs
                  | None => []
                  end in
    let globals := if String.eqb join_id "system"
                   then elements (_global_callbacks self) else [] in
    set_notified (notified self ++
                  [{| n_join_id := join_id; n_value := v;
                      n_recipients := joined ++ globals |}]) self).

Definition register_callback (join_id : string) (cb : callback) : M unit :=
  assign (fun self =>
    if String.eqb join_id "system"
    then set_global_callbacks ({[cb]} ∪ _global_callbacks self) self
    else set_join_callbacks
           (<[join_id := {[cb]} ∪ default ∅ (_join_callbacks self !! join_id)]>
              (_join_callbacks self)) self).

(** [writer.write(data)] followed by [await writer.drain()]. *)
Definition write_drain (writer : StreamWriter) (data : list Z) : M unit :=
  assign (fun self => set_wire (wire self ++ data) self) >>
  if drain_fails writer then raise (LibraryError "ConnectionResetError")
  else ret tt.

(** The same on [self._writer], as the queued closures do it. *)
Definition self_write_drain (data : list Z) : M unit :=
  let* self := get in
  match _writer self with
  | None => raise (LibraryError "AttributeError")
  | Some w => write_drain w data
  end.

(** [await self._command_queue.put(send_command)]. *)
Definition queue_put (c : command) : M unit :=
  fun self =>
    if (MAX_QUEUE_SIZE <=? length (_command_queue self))%nat
    then Suspend self
    else Return tt (set_command_queue (_command_queue self ++ [c]) self).

(** [join_state.value = v; join_state.last_update = time.time();
    join_state.update_count += 1]. *)
Definition touch (v : pyval) (now : Z) (js : JoinState.t) : JoinState.t :=
  {| JoinState.value := v; JoinState.last_update := now;
     JoinState.update_count := JoinState.update_count js + 1 |}.

(** The statements under [try:] in [set_digital]. *)
Definition set_digital_try (join : Z) (value : bool) (now : Z) : M unit :=
  _validate_join join "d" >>
  let* self := get in
  if negb (available self)
  then raise (ConnectionError "Server not available" None)
  else if negb (bool_decide (is_Some (_writer self)))
  then raise (ConnectionError "No connection to Crestron system" None)
  else
    let join_id := "d" +:+ pretty join in
    let* ok := _check_rate_limit join_id now in
    if negb ok
    then raise (HomeAssistantError
                  ("Join " +:+ join_id +:+ " update rate exceeded"))
    else queue_put (send_digital join value).

Definition set_digital (join : Z) (value : bool) (now : Z) : M unit :=
  try_except (set_digital_try join value now)
    (fun err => raise (ConnectionError "Failed to send digital value: "
                                       (Some err))).

(** The statements under [try:] in [set_analog]. *)
Definition set_analog_try (join value : Z) (now : Z) : M unit :=
  _validate_join join "a" >>
  let* self := get in
  if negb (available self)
  then raise (ConnectionError "Server not available" None)
  else if negb (bool_decide (is_Some (_writer self)))
  then raise (ConnectionError "No connection to Crestron system" None)
  else
    let join_id := "a" +:+ pretty join in
    let* ok := _check_rate_limit join_id now in
    if negb ok
    then raise (HomeAssistantError
                  ("Join " +:+ join_id +:+ " update rate exceeded"))
    else queue_put (send_analog join value).

Definition set_analog (join value : Z) (now : Z) : M unit :=
  try_except (set_analog_try join value now)
    (fun err => raise (ConnectionError "Failed to send analog value: "
                                       (Some err))).

(** The statements under [try:] in [set_serial]. *)
Definition set_serial_try (join : Z) (s : list Z) (now : Z) : M unit :=
  let* self := get in
  if negb (available self)
  then raise (ConnectionError "Server not available" None)
  else if negb (bool_decide (is_Some (_writer self)))
  then raise (ConnectionError "No connection to Crestron system" None)
  else if (252 <? length s)%nat
  then raise (ValueError ("String too long (" +:+ pretty (length s)
                          +:+ ">252)"))
  else
    let join_id := "s" +:+ pretty join in
    let* ok := _check_rate_limit join_id now in
    if negb ok
    then raise (HomeAssistantError
                  ("Join " +:+ join_id +:+ " update rate exceeded"))
    else queue_put (send_serial join s).

Definition set_serial (join : Z) (s : list Z) (now : Z) : M unit :=
  try_except (set_serial_try join s now)
    (fun err => raise (ConnectionError "Failed to send serial value: "
                                       (Some err))).

(** Running a queued closure: the body of [send_command]; [now] is the
    reading of [time.time()] in it. *)
Definition send_command (c : command) (now : Z) : M unit :=
  match c with
  | send_digital join value =>
      match Codec.digital_frame join value with
      | None => raise (LibraryError "struct.error")
      | Some data => self_write_drain data
      end
  | send_analog join value =>
      match Codec.analog_frame join value with
      | None => raise (LibraryError "struct.error")
      | Some data =>
          self_write_drain data >>
          assign (fun self =>
            let '(js, tbl) := dd_get JoinState.init join (_analog self) in
            set_analog_tbl (<[join := touch (PyInt value) now js]> tbl) self)
      end
  | send_serial join s =>
      match Codec.serial_header join with
      | None => raise (LibraryError "struct.error")
      | Some header =>
          match Utf8.encode s with
          | None => raise (LibraryError "UnicodeEncodeError")
          | Some payload =>
              self_write_drain (header ++ payload ++ [0xFF]) >>
              assign (fun self =>
                let '(js, tbl) := dd_get JoinState.init join (_serial self) in
                set_serial_tbl (<[join := touch (PyStr s) now js]> tbl) self)
          end
      end
  end.

(** The statements under [try:] in [get_digital]. *)
Definition get_digital_try (join : Z) : M pyval :=
  _validate_join join "d" >>
  let* self := get in
  if negb (available self) then ret (PyBool false)
  else
    let '(js, tbl) := dd_get JoinState.init join (_digital self) in
    assign (set_digital_tbl tbl) >>
    ret (py_or (JoinState.value js) (PyBool false)).

Definition get_digital (join : Z) : M pyval :=
  try_except (get_digital_try join) (fun _ => ret (PyBool false)).

(** The statements under [try:] in [get_analog]. *)
Definition get_analog_try (join : Z) : M pyval :=
  _validate_join join "a" >>
  let* self := get in
  if negb (available self) then ret PyNone
  else
    let '(js, tbl) := dd_get JoinState.init join (_analog self) in
    assign (set_analog_tbl tbl) >>
    ret (JoinState.value js).

Definition get_analog (join : Z) : M pyval :=
  try_except (get_analog_try join) (fun _ => ret PyNone).

(** The statements under [try:] in [get_serial]. *)
Definition get_serial_try (join : Z) : M pyval :=
  let* self := get in
  if negb (available self) then ret (PyStr [])
  else
    let '(js, tbl) := dd_get JoinState.init join (_serial self) in
    assign (set_serial_tbl tbl) >>
    ret (py_or (JoinState.value js) (PyStr [])).

Definition get_serial (join : Z) : M pyval :=
  try_except (get_serial_try join) (fun _ => ret (PyStr [])).

(** ** The connection handler *)

(** What [reader] delivers: each byte with the reading of [time.time()] at
    the moment the read that returned it completed, and how the stream ends
    (the peer closes, or the read raises).  A [read(n)] returns [n] bytes
    whenever the stream still holds that many. *)
Record rx := { rx_byte : Z; rx_time : Z }.
Inductive stream_end := EOF | Reset.
Record StreamReader := { pending : list rx; ending : stream_end }.

Definition advance (n : nat) (r : StreamReader) : StreamReader :=
  {| pending := drop n (pending r); ending := ending r |}.

(** [await reader.read(n)]. *)
Definition read (n : nat) (r : StreamReader) : M (list rx * StreamReader) :=
  match pending r, ending r with
  | [], Reset => raise (LibraryError "ConnectionResetError")
  | bs, _ => ret (take n bs, advance n r)
  end.

(** [await reader.readuntil(b"\xff")], with the reader's default limit of
    2**16 bytes: the bytes up to and including the first 0xFF. *)
Fixpoint until_ff (bs : list rx) : option (list rx * rx * list rx) :=
  match bs with
  | [] => None
  | b :: rest =>
      if rx_byte b =? 0xFF then Some ([], b, rest)
      else match until_ff rest with
           | Some (body, ff, rest') => Some (b :: body, ff, rest')
           | None => None
           end
  end.

Definition readuntil (r : StreamReader)
  : M (list rx * rx * StreamReader) :=
  match until_ff (pending r) with
  | None => raise (LibraryError "IncompleteReadError")
  | Some (body, ff, rest) =>
      if 65536 <? Z.of_nat (length body)
      then raise (LibraryError "LimitOverrunError")
      else ret (body, ff, {| pending := rest; ending := ending r |})
  end.

(** Lines 298-316: the part of [handle_connection] before the loop. *)
Definition accept (writer : StreamWriter) : M unit :=
  assign (set_writer (Some writer)) >>
  assign (set_initial_sync_received false) >>
  assign (set_initial_sync_event false) >>
  assign (set_last_sync_request 0) >>
  assign (set_digital_tbl ∅) >>
  assign (set_analog_tbl ∅) >>
  assign (set_serial_tbl ∅) >>
  write_drain writer CMD_UPDATE_REQUEST.

(** The branch of the loop for the byte 0xFB received at [current_time]. *)
Definition on_sync (writer : StreamWriter) (current_time : Z) : M unit :=
  let* self := get in
  if SYNC_DEBOUNCE <? current_time - _last_sync_request self then
    assign (set_last_sync_request current_time) >>
    (if negb (_initial_sync_received self) then
       assign (set_initial_sync_received true) >>
       assign (set_initial_sync_event true) >>
       assign (set_available true) >>
       assign (set_command_event true) >>
       _notify_callbacks "system" (PyStr (lit "connected")) >>
       write_drain writer CMD_UPDATE_REQUEST
     else ret tt) >>
    match _sync_all_joins_callback self with
    | Some raises =>
        if raises then raise (LibraryError "Exception") else ret tt
    | None => ret tt
    end
  else ret tt.

Definition on_digital (b0 b1 now : Z) : M unit :=
  let join := Codec.digital_join b0 b1 in
  let value := Codec.digital_value b0 in
  let current_bool := value =? 1 in
  let* self := get in
  let '(js, tbl) := dd_get JoinState.init join (_digital self) in
  assign (set_digital_tbl (<[join := touch (PyBool current_bool) now js]> tbl)) >>
  _notify_callbacks ("d" +:+ pretty join)
                    (PyStr (lit (if current_bool then "1" else "0"))).

Definition on_analog (b0 b1 b2 b3 now : Z) : M unit :=
  let join := Codec.analog_join b0 b1 in
  let value := Codec.analog_value b0 b2 b3 in
  let* self := get in
  let '(js, tbl) := dd_get JoinState.init join (_analog self) in
  if negb (py_eq (JoinState.value js) (PyInt value)) then
    assign (set_analog_tbl (<[join := touch (PyInt value) now js]> tbl)) >>
    _notify_callbacks ("a" +:+ pretty join) (PyStr (str value))
  else assign (set_analog_tbl tbl).

Definition on_serial (b0 b1 : Z) (body : list Z) (now : Z) : M unit :=
  let join := Codec.serial_join b0 b1 in
  match Utf8.decode body with
  | None => raise (LibraryError "UnicodeDecodeError")
  | Some s =>
      let* self := get in
      let '(js, tbl) := dd_get JoinState.init join (_serial self) in
      if negb (py_eq (JoinState.value js) (PyStr s)) then
        assign (set_serial_tbl (<[join := touch (PyStr s) now js]> tbl)) >>
        _notify_callbacks ("s" +:+ pretty join) (PyStr s)
      else assign (set_serial_tbl tbl)
  end.

(** The [else:] branch for a first byte [d0] other than 0xFB: one more
    byte is read and the [if] / [elif] chain picks the kind of frame. *)
Definition on_frame (d0 : rx) (r : StreamReader) : M (bool * StreamReader) :=
  let* (more, r) := read 1 r in
  match more with
  | [] => raise (LibraryError "IndexError")
  | d1 :: _ =>
      let b0 := rx_byte d0 in
      let b1 := rx_byte d1 in
      if Codec.is_digital b0 b1 then
        on_digital b0 b1 (rx_time d1) >> ret (true, r)
      else if Codec.is_analog b0 b1 then
        let* (more, r) := read 2 r in
        match more with
        | [d2; d3] =>
            on_analog b0 b1 (rx_byte d2) (rx_byte d3) (rx_time d3) >>
            ret (true, r)
        | _ => raise (LibraryError "struct.error")
        end
      else if Codec.is_serial b0 b1 then
        let* (body, ff, r) := readuntil r in
        on_serial b0 b1 (map rx_byte body) (rx_time ff) >>
        ret (true, r)
      else ret (true, r)
  end.

(** The statements under [try:] inside [while connected]; the result is
    the new value of [connected] and the reader. *)
Definition iteration (writer : StreamWriter) (r : StreamReader)
  : M (bool * StreamReader) :=
  let* (data, r) := read 1 r in
  match data with
  | [] =>
      assign (set_available false) >>
      assign (set_command_event false) >>
      _notify_callbacks "system" (PyStr (lit "disconnected")) >>
      ret (false, r)
  | d0 :: _ =>
      if rx_byte d0 =? 0xFB then
        on_sync writer (rx_time d0) >> ret (true, r)
      else on_frame d0 r
  end.

(** The [except Exception] clause of the loop. *)
Definition on_error : M unit :=
  assign (set_available false) >>
  assign (set_command_event false) >>
  _notify_callbacks "system" (PyStr (lit "disconnected")).

(** [while connected:].  Every pass that goes on has consumed a byte, so
    the fuel [S (length (pending r))] is never used up
    ([read_loop_fuel]). *)
Fixpoint read_loop (fuel : nat) (writer : StreamWriter) (r : StreamReader)
  (self : CrestronServer) : option CrestronServer :=
  match fuel with
  | O => None
  | S fuel =>
      match iteration writer r self with
      | Return (true, r') self' => read_loop fuel writer r' self'
      | Return (false, _) self' => Some self'
      | Raise _ self' => Some (final (on_error self'))
      | Suspend self' => Some self'
      end
  end.

(** The [finally:] block. *)
Definition cleanup : M unit :=
  assign (set_writer None) >>
  assign (set_available false) >>
  assign (set_command_event false) >>
  assign (set_initial_sync_received false) >>
  assign (set_initial_sync_event false) >>
  _notify_callbacks "system" (PyStr (lit "disconnected")).

Definition handle_connection (reader : StreamReader) (writer : StreamWriter)
  (self : CrestronServer) : option CrestronServer :=
  let after_try :=
    match accept writer self with
    | Return _ self' =>
        read_loop (S (length (pending reader))) writer reader self'
    | r => Some (final r)
    end in
  option_map (fun s => final (cleanup s)) after_try.

(** ** Notions used in the statements *)

Global Instance pyval_eq_dec : EqDecision pyval.
Proof. solve_decision. Defined.

(** What the read loop makes of a frame of two bytes, and of four. *)
Definition decode_digital (b0 b1 : Z) : option (Z * bool) :=
  if Codec.is_digital b0 b1
  then Some (Codec.digital_join b0 b1, Codec.digital_value b0 =? 1)
  else None.

Definition decode_analog (b0 b1 b2 b3 : Z) : option (Z * Z) :=
  if Codec.is_digital b0 b1 then None
  else if Codec.is_analog b0 b1
  then Some (Codec.analog_join b0 b1, Codec.analog_value b0 b2 b3)
  else None.

(** The frame of [set_digital] for [(n, v)] is read back as [(n, v)]. *)
Definition digital_roundtrip (n : Z) (v : bool) : Prop :=
  exists b0 b1,
    Codec.digital_frame n v = Some [b0; b1] /\
    decode_digital b0 b1 = Some (n, v).

Definition analog_roundtrip (n v : Z) : Prop :=
  exists b0 b1 b2 b3,
    Codec.analog_frame n v = Some [b0; b1; b2; b3] /\
    decode_analog b0 b1 b2 b3 = Some (n, v).

(** The callbacks a ["system"] notification reaches in this state. *)
Definition system_recipients (self : CrestronServer) : list callback :=
  match _join_callbacks self !! "system" with
  | Some cbs => elements cbs
  | None => []
  end ++ elements (_global_callbacks self).

Definition system_event (v : string) (self : CrestronServer) : notification :=
  {| n_join_id := "system"; n_value := PyStr (lit v);
     n_recipients := system_recipients self |}.

(** How many times the event [v] went out on the ["system"] channel. *)
Definition is_system_event (v : string) (n : notification) : bool :=
  String.eqb (n_join_id n) "system" && bool_decide (n_value n = PyStr (lit v)).

Definition count_system (v : string) (self : CrestronServer) : nat :=
  length (filter (fun n => is_system_event v n = true) (notified self)).

(** The read that returns the empty byte string. *)
Definition at_eof : StreamReader := {| pending := []; ending := EOF |}.

(** From the pass of the loop whose read returns EOF to the end of
    [handle_connection]. *)
Definition eof_path (fuel : nat) (writer : StreamWriter)
  (self : CrestronServer) : option CrestronServer :=
  option_map (fun s => final (cleanup s)) (read_loop (S fuel) writer at_eof self).

(** The three tables are empty. *)
Definition tables_cleared (self : CrestronServer) : Prop :=
  _digital self = ∅ /\ _analog self = ∅ /\ _serial self = ∅.

(** The three tables of two states agree. *)
Definition same_tables (s1 s2 : CrestronServer) : Prop :=
  _digital s1 = _digital s2 /\ _analog s1 = _analog s2 /\
  _serial s1 = _serial s2.

(** The recorded send times of a join id ([defaultdict(list)]). *)
Definition update_times (join_id : string) (self : CrestronServer) : list Z :=
  default [] (_join_update_times self !! join_id).

(** The entries of a time-ordered list that lie in the window ending at
    [now]. *)
Definition in_window (now : Z) (updates : list Z) : list Z :=
  filter (fun t => now - t <= JOIN_UPDATE_WINDOW) updates.

(** Successive calls of [_check_rate_limit] for one join id, at the given
    readings of the clock. *)
Fixpoint check_all (join_id : string) (clock : list Z) (self : CrestronServer)
  : list bool * CrestronServer :=
  match clock with
  | [] => ([], self)
  | now :: clock' =>
      match _check_rate_limit join_id now self with
      | Return ok self' =>
          let '(oks, self'') := check_all join_id clock' self' in
          (ok :: oks, self'')
      | r => ([], final r)
      end
  end.

(** The entry of a table for a join, as [d[join]] yields it. *)
Definition entry (tbl : gmap Z JoinState.t) (join : Z) : JoinState.t :=
  default JoinState.init (tbl !! join).

(** The wrapped exceptions of the three setters. *)
Definition rate_exceeded (kind : string) (join_id : string) : exn :=
  ConnectionError ("Failed to send " +:+ kind +:+ " value: ")
    (Some (HomeAssistantError ("Join " +:+ join_id +:+ " update rate exceeded"))).

Definition string_too_long (s : list Z) : exn :=
  ConnectionError "Failed to send serial value: "
    (Some (ValueError ("String too long (" +:+ pretty (length s) +:+ ">252)"))).

(** A server whose first connection has just completed the handshake. *)
Definition open_writer : StreamWriter :=
  {| is_closing := false; drain_fails := false |}.

Definition synced : CrestronServer :=
  final (iteration open_writer
           {| pending := [{| rx_byte := 0xFB; rx_time := 1700000000000000 |}];
              ending := EOF |}
           (final (accept open_writer __init__))).

(** The three setters, taken together. *)
Inductive setter :=
  | SetDigital (join : Z) (value : bool)
  | SetAnalog (join value : Z)
  | SetSerial (join : Z) (s : list Z).

Definition call (c : setter) (now : Z) : M unit :=
  match c with
  | SetDigital join value => set_digital join value now
  | SetAnalog join value => set_analog join value now
  | SetSerial join s => set_serial join s now
  end.

Definition call_try (c : setter) (now : Z) : M unit :=
  match c with
  | SetDigital join value => set_digital_try join value now
  | SetAnalog join value => set_analog_try join value now
  | SetSerial join s => set_serial_try join s now
  end.

(** The word in the text of the wrapping [ConnectionError]. *)
Definition kind_of (c : setter) : string :=
  match c with
  | SetDigital _ _ => "digital"
  | SetAnalog _ _ => "analog"
  | SetSerial _ _ => "serial"
  end.

(** The key of the rate limiter. *)
Definition join_id_of (c : setter) : string :=
  match c with
  | SetDigital join _ => "d" +:+ pretty join
  | SetAnalog join _ => "a" +:+ pretty join
  | SetSerial join _ => "s" +:+ pretty join
  end.

(** The closure the setter queues. *)
Definition command_of (c : setter) : command :=
  match c with
  | SetDigital join value => send_digital join value
  | SetAnalog join value => send_analog join value
  | SetSerial join s => send_serial join s
  end.

(** The arguments pass the checks that come before the rate limiter. *)
Definition accepted (c : setter) : Prop :=
  match c with
  | SetDigital join _ => 0 < join <= MAX_DIGITAL_JOIN
  | SetAnalog join _ => 0 < join <= MAX_ANALOG_JOIN
  | SetSerial _ s => (length s <= 252)%nat
  end.

(** The fields that the handling of a digital, analog or serial frame
    leaves alone: everything but the three tables and the history of
    notifications. *)
Definition control (self : CrestronServer) :=
  (_writer self, _available self, _command_queue self, _command_event self,
   _join_update_times self, _join_callbacks self, _global_callbacks self,
   _sync_all_joins_callback self, _initial_sync_received self,
   _initial_sync_event self, _last_sync_request self, wire self).

Definition frame_inert (s s' : CrestronServer) : Prop :=
  control s' = control s /\ forall v, count_system v s' = count_system v s.

Definition preserves {A} (m : M A) : Prop :=
  forall self, frame_inert self (final (m self)).

(** A connection in use: a listener on the ["system"] channel, the
    handshake done, and the frame [80 00] (digital join 1 ON) received. *)
Definition loaded : CrestronServer :=
  let listening := final (register_callback "system" 7%nat __init__) in
  let accepted := final (accept open_writer listening) in
  let at_time := fun b => {| rx_byte := b; rx_time := 1700000000000000 |} in
  let handshaken :=
    final (iteration open_writer
             {| pending := [at_time 0xFB]; ending := EOF |} accepted) in
  final (iteration open_writer
           {| pending := [at_time 0x80; at_time 0x00]; ending := EOF |}
           handshaken).

(** An outcome of a setter that has kept the tables and the wire, and that
    has queued the closure if it is a return. *)
Definition queues (c : setter) (self : CrestronServer) (r : outcome unit)
  : Prop :=
  same_tables (final r) self /\ wire (final r) = wire self /\
  forall s, r = Return tt s ->
            _command_queue s = _command_queue self ++ [command_of c].

(** Send times one [step] apart, starting at [t0]. *)
Definition ticks (t0 step : Z) (n : nat) : list Z :=
  map (fun i => t0 + step * Z.of_nat i) (seq 0 n).

(** The synchronised server after a thousand admitted checks for analog
    join 1, one millisecond apart. *)
Definition busy : CrestronServer :=
  snd (check_all "a1" (ticks 1700000000000001 1000 1000) synced).

(** ** Further methods of [CrestronServer] *)

(** An [await] that does not complete in this state. *)
Definition suspend {A} : M A := fun self => Suspend self.

(** [unregister_callback], and likewise the [unregister] closure that
    [register_callback] returns: [discard] on the set, and the key of a
    join is deleted when its set becomes empty. *)
Definition unregister_callback (join_id : string) (cb : callback) : M unit :=
  assign (fun self =>
    if String.eqb join_id "system"
    then set_global_callbacks (_global_callbacks self ∖ {[cb]}) self
    else
      match _join_callbacks self !! join_id with
      | Some cbs =>
          let cbs' := cbs ∖ {[cb]} in
          if bool_decide (cbs' = ∅)
          then set_join_callbacks (delete join_id (_join_callbacks self)) self
          else set_join_callbacks
                 (<[join_id := cbs']> (_join_callbacks self)) self
      | None => self
      end).

(** One pass of [while True:] in [_process_command_queue]; [now] is the
    reading of [time.time()] inside the command.  The pass waits at
    [_command_event.wait()] while the server is unavailable and the event
    is clear; with an empty queue [wait_for] times out and the pass ends. *)
Definition _process_command_queue (now : Z) : M unit :=
  let* self := get in
  (if negb (available self) && negb (_command_event self)
   then suspend else ret tt) >>
  match _command_queue self with
  | [] => ret tt
  | command :: queue =>
      assign (set_command_queue queue) >>
      if negb (available self) then ret tt
      else
        try_except (send_command command now)
          (fun _ =>
             let* self := get in
             if _available self then
               assign (set_available false) >>
               assign (set_command_event false) >>
               _notify_callbacks "system" (PyStr (lit "disconnected"))
             else ret tt)
  end.


(** The callbacks [_notify_callbacks] calls for a join id in this state. *)
Definition recipients_of (join_id : string) (self : CrestronServer)
  : list callback :=
  match _join_callbacks self !! join_id with
  | Some cbs => elements cbs
  | None => []
  end ++
  (if String.eqb join_id "system" then elements (_global_callbacks self)
   else []).

(** The bytes [set_serial]'s closure writes for a join and a string. *)
Definition serial_frame (join : Z) (s : list Z) : option (list Z) :=
  match Codec.serial_header join, Utf8.encode s with
  | Some header, Some payload => Some (header ++ payload ++ [0xFF])
  | _, _ => None
  end.

(** Bytes as the reader delivers them, all read at the time [t]. *)
Definition received (t : Z) (bytes : list Z) : list rx :=
  map (fun b => {| rx_byte := b; rx_time := t |}) bytes.

(** The join number a setter is called with. *)
Definition join_of (c : setter) : Z :=
  match c with
  | SetDigital join _ | SetAnalog join _ | SetSerial join _ => join
  end.

(** The synchronised server with one command queued, when the writer has
    begun to close. *)
Definition closing : CrestronServer :=
  set_writer (Some {| is_closing := true; drain_fails := false |})
    (set_command_queue [send_analog 1 5] synced).

(** The notification of a join's callbacks, as [_notify_callbacks] records
    it. *)
Definition join_event (join_id : string) (v : pyval) (self : CrestronServer)
  : notification :=
  {| n_join_id := join_id; n_value := v;
     n_recipients := recipients_of join_id self |}.


(** [register_sync_all_joins_callback]; of the callback the model keeps
    whether awaiting it raises. *)
Definition register_sync_all_joins_callback (raises : bool) : M unit :=
  assign (set_sync_all_joins_callback (Some raises)).

(** The synchronised server with [MAX_QUEUE_SIZE] commands waiting. *)
Definition congested : CrestronServer :=
  set_command_queue (replicate MAX_QUEUE_SIZE (send_digital 1 true)) synced.

(** The synchronised server with one command queued, and the same after
    the peer has closed the connection. *)
Definition waiting : CrestronServer :=
  set_command_queue [send_analog 1 5] synced.

Definition hung_up : CrestronServer :=
  default waiting (handle_connection at_eof open_writer waiting).

(** * Properties *)

(** ** Bit fields as arithmetic *)

Ltac divlia := Z.div_mod_to_equations; lia.

Module BitFacts.

Lemma land_mask (x w k : Z) :
  0 <= k ->
  Z.land x (Z.shiftl (Z.ones w) k)
  = Z.shiftl (Z.land (Z.shiftr x k) (Z.ones w)) k.
Proof.
  intros Hk. apply Z.bits_inj'. intros i Hi.
  rewrite Z.land_spec, !Z.shiftl_spec, Z.land_spec by lia.
  destruct (Z.lt_ge_cases i k) as [Hlt | Hge].
  - rewrite !(Z.testbit_neg_r _ (i - k)) by lia. apply andb_false_r.
  - rewrite Z.shiftr_spec by lia. replace (i - k + k) with i by lia.
    reflexivity.
Qed.

(** A mask of [w] ones at position [k] selects a field of the number. *)
Lemma field (x w k : Z) :
  0 <= k -> 0 <= w ->
  Z.land x (Z.shiftl (Z.ones w) k) = (x / 2 ^ k) mod 2 ^ w * 2 ^ k.
Proof.
  intros Hk Hw.
  rewrite land_mask, Z.shiftl_mul_pow2, Z.land_ones, Z.shiftr_div_pow2 by lia.
  reflexivity.
Qed.

(** [|] with a number below the lowest set bit is an addition. *)
Lemma lor_low (a r k : Z) :
  0 <= k -> 0 <= r < 2 ^ k -> Z.lor (a * 2 ^ k) r = a * 2 ^ k + r.
Proof.
  intros Hk Hr.
  assert (Hdisj : Z.land (a * 2 ^ k) r = 0).
  { apply Z.bits_inj'. intros i Hi.
    rewrite Z.land_spec, Z.bits_0, <- Z.shiftl_mul_pow2 by lia.
    destruct (Z.lt_ge_cases i k) as [Hlt | Hge].
    - rewrite Z.shiftl_spec_low by lia. reflexivity.
    - rewrite <- (Z.mod_small r (2 ^ k)) by lia.
      rewrite Z.mod_pow2_bits_high by lia. apply andb_false_r. }
  rewrite <- Z.lxor_lor by exact Hdisj.
  symmetry. apply Z.add_nocarry_lxor. exact Hdisj.
Qed.

Lemma land_7F x : Z.land x 0x7F = x mod 128.
Proof. change 0x7F with (Z.ones 7). rewrite Z.land_ones by lia. reflexivity. Qed.

Lemma land_1F x : Z.land x 0x1F = x mod 32.
Proof. change 0x1F with (Z.ones 5). rewrite Z.land_ones by lia. reflexivity. Qed.

Lemma land_07 x : Z.land x 0x07 = x mod 8.
Proof. change 0x07 with (Z.ones 3). rewrite Z.land_ones by lia. reflexivity. Qed.

Lemma land_01 x : Z.land x 1 = x mod 2.
Proof. change 1 with (Z.ones 1). rewrite Z.land_ones by lia. reflexivity. Qed.

Lemma land_C0 x : Z.land x 0xC0 = (x / 64) mod 4 * 64.
Proof.
  change 0xC0 with (Z.shiftl (Z.ones 2) 6).
  rewrite field by lia. reflexivity.
Qed.

Lemma land_80 x : Z.land x 0x80 = (x / 128) mod 2 * 128.
Proof.
  change 0x80 with (Z.shiftl (Z.ones 1) 7).
  rewrite field by lia. reflexivity.
Qed.

Lemma land_30 x : Z.land x 0x30 = (x / 16) mod 4 * 16.
Proof.
  change 0x30 with (Z.shiftl (Z.ones 2) 4).
  rewrite field by lia. reflexivity.
Qed.

Lemma land_08 x : Z.land x 0x08 = (x / 8) mod 2 * 8.
Proof.
  change 0x08 with (Z.shiftl (Z.ones 1) 3).
  rewrite field by lia. reflexivity.
Qed.

Lemma land_C8 x : Z.land x 0xC8 = (x / 64) mod 4 * 64 + (x / 8) mod 2 * 8.
Proof.
  change 0xC8 with (Z.lor 0xC0 0x08).
  rewrite Z.land_lor_distr_r, land_C0, land_08.
  change 64 with (2 ^ 6) at 2.
  apply lor_low; [lia |]. change (2 ^ 6) with 64. divlia.
Qed.

(** [(q << 7 | r)] for a seven-bit [r]. *)
Lemma join_of_parts q r :
  0 <= r < 128 -> Z.lor (Z.shiftl q 7) r = q * 128 + r.
Proof.
  intros Hr. rewrite Z.shiftl_mul_pow2 by lia.
  rewrite lor_low by (change (2 ^ 7) with 128; lia). reflexivity.
Qed.

End BitFacts.

(** ** The frames and their decoding *)

Lemma pack_B_bytes (l : list Z) :
  Forall (fun x => 0 <= x <= 255) l -> Codec.pack_B l = Some l.
Proof.
  intros Hl. unfold Codec.pack_B.
  replace (forallb Codec.is_byte l) with true; [reflexivity |].
  symmetry. apply forallb_forall. intros x Hx.
  rewrite Forall_forall in Hl. specialize (Hl x). unfold Codec.is_byte.
  rewrite <- list_elem_of_In in Hx. specialize (Hl Hx). lia.
Qed.

(** The first byte of a digital frame: marker, sense bit (set for OFF),
    and the high bits of the join. *)
Lemma digital_b0_arith n v :
  1 <= n <= 4096 ->
  Codec.digital_b0 n v = 128 + (if v then 0 else 32) + (n - 1) / 128.
Proof.
  intros Hn. unfold Codec.digital_b0.
  rewrite Z.shiftr_div_pow2 by lia. change (2 ^ 7) with 128.
  assert (Hq : 0 <= (n - 1) / 128 < 2 ^ 5)
    by (change (2 ^ 5) with 32; divlia).
  destruct v; cbn [Z.b2z].
  - change (Z.lor 128 (Z.land (Z.shiftl (Z.lnot 1) 5) 32)) with (4 * 2 ^ 5).
    rewrite BitFacts.lor_low by lia. lia.
  - change (Z.lor 128 (Z.land (Z.shiftl (Z.lnot 0) 5) 32)) with (5 * 2 ^ 5).
    rewrite BitFacts.lor_low by lia. lia.
Qed.

(** The two bytes packed for a digital join that fits the frame are read
    back as they were sent. *)
Lemma digital_frame_decodes (n : Z) (v : bool) :
  1 <= n <= 4096 -> digital_roundtrip n v.
Proof.
  intros Hn. exists (Codec.digital_b0 n v), (Codec.digital_b1 n).
  pose proof (digital_b0_arith n v Hn) as Hb0.
  assert (Hb1 : Codec.digital_b1 n = (n - 1) mod 128)
    by apply BitFacts.land_7F.
  unfold Codec.digital_frame.
  generalize dependent (Codec.digital_b0 n v).
  generalize dependent (Codec.digital_b1 n).
  intros b1 Hb1 b0 Hb0. split.
  - apply pack_B_bytes. repeat constructor; destruct v; divlia.
  - unfold decode_digital, Codec.is_digital, Codec.digital_join,
      Codec.digital_value.
    rewrite BitFacts.land_C0, BitFacts.land_80, BitFacts.land_1F,
      BitFacts.land_01, Z.shiftr_div_pow2 by lia.
    rewrite BitFacts.join_of_parts by divlia.
    unfold Z.lnot. change (2 ^ 5) with 32.
    destruct (_ && _) eqn:Hgate; [| exfalso; destruct v; divlia].
    clear Hgate. f_equal. f_equal; destruct v; divlia.
Qed.

(** The first byte of an analog frame. *)
Lemma analog_b0_arith n v :
  1 <= n <= 1024 ->
  Codec.analog_b0 n v = 192 + (v / 16384) mod 4 * 16 + (n - 1) / 128.
Proof.
  intros Hn. unfold Codec.analog_b0.
  rewrite BitFacts.land_30, !Z.shiftr_div_pow2 by lia.
  change (2 ^ 7) with 128. change (2 ^ 10) with 1024.
  rewrite Z.div_div by lia. change (1024 * 16) with 16384.
  set (h := (v / 16384) mod 4). assert (Hh : 0 <= h < 4) by (subst h; divlia).
  set (q := (n - 1) / 128). assert (Hq : 0 <= q < 8) by (subst q; divlia).
  change 0xC0 with (3 * 2 ^ 6).
  rewrite BitFacts.lor_low by (change (2 ^ 6) with 64; lia).
  replace (3 * 2 ^ 6 + h * 16) with ((12 + h) * 2 ^ 4)
    by (change (2 ^ 6) with 64; change (2 ^ 4) with 16; lia).
  rewrite BitFacts.lor_low by (change (2 ^ 4) with 16; lia).
  change (2 ^ 4) with 16. lia.
Qed.

Lemma analog_value_arith b0 b2 b3 :
  0 <= b2 < 128 -> 0 <= b3 < 128 ->
  Codec.analog_value b0 b2 b3 = (b0 / 16) mod 4 * 16384 + b2 * 128 + b3.
Proof.
  intros H2 H3. unfold Codec.analog_value.
  rewrite BitFacts.land_30, !Z.shiftl_mul_pow2 by lia.
  set (h := (b0 / 16) mod 4).
  replace (h * 16 * 2 ^ 10) with (h * 2 ^ 14)
    by (change (2 ^ 10) with 1024; change (2 ^ 14) with 16384; lia).
  rewrite BitFacts.lor_low
    by (change (2 ^ 14) with 16384; change (2 ^ 7) with 128; lia).
  replace (h * 2 ^ 14 + b2 * 2 ^ 7) with ((h * 128 + b2) * 2 ^ 7)
    by (change (2 ^ 14) with 16384; change (2 ^ 7) with 128; lia).
  rewrite BitFacts.lor_low by (change (2 ^ 7) with 128; lia).
  change (2 ^ 7) with 128. lia.
Qed.

(** The same for the four bytes of an analog join that fits the frame. *)
Lemma analog_frame_decodes (n v : Z) :
  1 <= n <= 1024 -> 0 <= v <= 65535 -> analog_roundtrip n v.
Proof.
  intros Hn Hv.
  exists (Codec.analog_b0 n v), (Codec.analog_b1 n),
         (Codec.analog_b2 v), (Codec.analog_b3 v).
  pose proof (analog_b0_arith n v Hn) as Hb0.
  assert (Hb1 : Codec.analog_b1 n = (n - 1) mod 128)
    by apply BitFacts.land_7F.
  assert (Hb2 : Codec.analog_b2 v = (v / 128) mod 128).
  { unfold Codec.analog_b2.
    rewrite BitFacts.land_7F, Z.shiftr_div_pow2 by lia. reflexivity. }
  assert (Hb3 : Codec.analog_b3 v = v mod 128) by apply BitFacts.land_7F.
  unfold Codec.analog_frame.
  generalize dependent (Codec.analog_b0 n v).
  generalize dependent (Codec.analog_b1 n).
  generalize dependent (Codec.analog_b2 v).
  generalize dependent (Codec.analog_b3 v).
  intros b3 Hb3 b2 Hb2 b1 Hb1 b0 Hb0. split.
  - apply pack_B_bytes. repeat constructor; divlia.
  - unfold decode_analog, Codec.is_digital, Codec.is_analog,
      Codec.analog_join.
    rewrite analog_value_arith by divlia.
    rewrite BitFacts.land_C0, BitFacts.land_C8, BitFacts.land_80,
      BitFacts.land_07.
    rewrite BitFacts.join_of_parts by divlia.
    destruct ((_ =? 128) && _) eqn:Hd; [exfalso; divlia |].
    destruct ((_ =? 192) && _) eqn:Ha; [| exfalso; divlia].
    clear Hd Ha. f_equal. f_equal; divlia.
Qed.

(** ** Reading and writing joins *)

(** Unfolds the monad so that a method body becomes a tree of tests. *)
Ltac run :=
  unfold try_except, bind, ret, raise, get, assign, queue_put in *;
  cbn beta iota in *.

Lemma validate_digital_ok join self :
  0 < join <= MAX_DIGITAL_JOIN -> _validate_join join "d" self = Return tt self.
Proof.
  intros Hj. unfold _validate_join. cbn [String.eqb Ascii.eqb Bool.eqb andb].
  replace ((0 <? join) && (join <=? MAX_DIGITAL_JOIN)) with true by lia.
  reflexivity.
Qed.

Lemma validate_digital_bad join self :
  ~ 0 < join <= MAX_DIGITAL_JOIN ->
  _validate_join join "d" self
  = Raise (ValueError ("Invalid join number: Digital join " +:+ pretty join
                       +:+ " exceeds maximum " +:+ pretty MAX_DIGITAL_JOIN))
          self.
Proof.
  intros Hj. unfold _validate_join. cbn [String.eqb Ascii.eqb Bool.eqb andb].
  replace ((0 <? join) && (join <=? MAX_DIGITAL_JOIN)) with false by lia.
  reflexivity.
Qed.

Lemma validate_analog_ok join self :
  0 < join <= MAX_ANALOG_JOIN -> _validate_join join "a" self = Return tt self.
Proof.
  intros Hj. unfold _validate_join. cbn [String.eqb Ascii.eqb Bool.eqb andb].
  replace ((0 <? join) && (join <=? MAX_ANALOG_JOIN)) with true by lia.
  reflexivity.
Qed.

Lemma validate_analog_bad join self :
  ~ 0 < join <= MAX_ANALOG_JOIN ->
  _validate_join join "a" self
  = Raise (ValueError ("Invalid join number: Analog join " +:+ pretty join
                       +:+ " exceeds maximum " +:+ pretty MAX_ANALOG_JOIN))
          self.
Proof.
  intros Hj. unfold _validate_join. cbn [String.eqb Ascii.eqb Bool.eqb andb].
  replace ((0 <? join) && (join <=? MAX_ANALOG_JOIN)) with false by lia.
  reflexivity.
Qed.

(** [_validate_join] returns or raises, and leaves the object alone. *)
Lemma validate_cases join kind self :
  _validate_join join kind self = Return tt self \/
  exists msg, _validate_join join kind self = Raise (ValueError msg) self.
Proof.
  unfold _validate_join.
  destruct (_ && _); [right; eexists; reflexivity |].
  destruct (_ && _); [right; eexists; reflexivity | left; reflexivity].
Qed.

Lemma get_digital_unavailable join self :
  available self = false -> get_digital join self = Return (PyBool false) self.
Proof.
  intros Hoff. unfold get_digital, get_digital_try. run.
  destruct (validate_cases join "d" self) as [-> | [msg ->]]; [| reflexivity].
  rewrite Hoff. reflexivity.
Qed.

Lemma get_analog_unavailable join self :
  available self = false -> get_analog join self = Return PyNone self.
Proof.
  intros Hoff. unfold get_analog, get_analog_try. run.
  destruct (validate_cases join "a" self) as [-> | [msg ->]]; [| reflexivity].
  rewrite Hoff. reflexivity.
Qed.

Lemma get_serial_unavailable join self :
  available self = false -> get_serial join self = Return (PyStr []) self.
Proof.
  intros Hoff. unfold get_serial, get_serial_try. run.
  rewrite Hoff. reflexivity.
Qed.

(** C5 (amended).  While the connection is unavailable, for every join
    number, [get_digital] returns [False], [get_analog] returns [None] (not
    0), and [get_serial] returns the empty string; none of them touches the
    server object. *)
Theorem unavailable_reads (join : Z) (self : CrestronServer) :
  available self = false ->
  get_digital join self = Return (PyBool false) self /\
  get_analog join self = Return PyNone self /\
  get_serial join self = Return (PyStr []) self.
Proof.
  intros Hoff.
  auto using get_digital_unavailable, get_analog_unavailable,
    get_serial_unavailable.
Qed.

Lemma unavailable_reads_witness :
  get_digital 5 __init__ = Return (PyBool false) __init__ /\
  get_analog 5 __init__ = Return PyNone __init__ /\
  get_serial 5 __init__ = Return (PyStr []) __init__.
Proof. apply (unavailable_reads 5 __init__). reflexivity. Defined.

(** C5 as stated fails for [get_analog]: on the freshly built, unconnected
    server the valid join 1 reads [None], not 0. *)
Lemma unavailable_get_analog_not_zero :
  available __init__ = false /\
  ~ exists s, get_analog 1 __init__ = Return (PyInt 0) s.
Proof.
  split; [reflexivity |]. intros [s Hget].
  rewrite get_analog_unavailable in Hget by reflexivity. discriminate Hget.
Qed.

(** A [try] whose handler returns never raises. *)
Lemma get_digital_returns join self :
  exists v s, get_digital join self = Return v s.
Proof.
  unfold get_digital, get_digital_try. run.
  destruct (validate_cases join "d" self) as [-> | [msg ->]]; [| eauto].
  destruct (negb (available self)); [eauto |].
  destruct (dd_get _ _ _); eauto.
Qed.

Lemma get_analog_returns join self :
  exists v s, get_analog join self = Return v s.
Proof.
  unfold get_analog, get_analog_try. run.
  destruct (validate_cases join "a" self) as [-> | [msg ->]]; [| eauto].
  destruct (negb (available self)); [eauto |].
  destruct (dd_get _ _ _); eauto.
Qed.

Lemma get_serial_returns join self :
  exists v s, get_serial join self = Return v s.
Proof.
  unfold get_serial, get_serial_try. run.
  destruct (negb (available self)); [eauto |].
  destruct (dd_get _ _ _); eauto.
Qed.

(** C10.  [get_digital], [get_analog] and [get_serial] return for every
    integer join and every state of the server (they never raise and never
    wait); whenever the statements under their [try] raise, the result is
    the fallback [False], [None], [""]; and a join outside 1..65535 is such
    a case for [get_digital] and [get_analog], whose validation raises
    [ValueError]. *)
Theorem getters_never_raise (join : Z) (self : CrestronServer) :
  ((exists v s, get_digital join self = Return v s) /\
   (exists v s, get_analog join self = Return v s) /\
   (exists v s, get_serial join self = Return v s)) /\
  (forall e s, get_digital_try join self = Raise e s ->
               get_digital join self = Return (PyBool false) s) /\
  (forall e s, get_analog_try join self = Raise e s ->
               get_analog join self = Return PyNone s) /\
  (forall e s, get_serial_try join self = Raise e s ->
               get_serial join self = Return (PyStr []) s) /\
  (~ 0 < join <= 65535 ->
   (exists msg, get_digital_try join self = Raise (ValueError msg) self) /\
   (exists msg, get_analog_try join self = Raise (ValueError msg) self) /\
   get_digital join self = Return (PyBool false) self /\
   get_analog join self = Return PyNone self).
Proof.
  split; [| split; [| split; [| split]]].
  - auto using get_digital_returns, get_analog_returns, get_serial_returns.
  - intros e s Htry. unfold get_digital, try_except. rewrite Htry. reflexivity.
  - intros e s Htry. unfold get_analog, try_except. rewrite Htry. reflexivity.
  - intros e s Htry. unfold get_serial, try_except. rewrite Htry. reflexivity.
  - intros Hbad.
    assert (Hd := validate_digital_bad join self Hbad).
    assert (Ha := validate_analog_bad join self Hbad).
    unfold get_digital, get_analog, get_digital_try, get_analog_try. run.
    rewrite Hd, Ha. repeat split; eauto.
Qed.

Lemma getters_never_raise_witness :
  get_digital 0 synced = Return (PyBool false) synced /\
  get_analog 70000 synced = Return PyNone synced.
Proof.
  split.
  - apply (getters_never_raise 0 synced). lia.
  - apply (getters_never_raise 70000 synced). lia.
Defined.

(** ** The rate limiter *)

Lemma check_rate_limit_spec join_id now self :
  _check_rate_limit join_id now self =
  let updates := expire now (update_times join_id self) in
  if (MAX_JOIN_UPDATES <=? length updates)%nat
  then Return false
         (set_join_update_times
            (<[join_id := updates]> (_join_update_times self)) self)
  else Return true
         (set_join_update_times
            (<[join_id := updates ++ [now]]> (_join_update_times self)) self).
Proof.
  unfold _check_rate_limit, update_times, dd_get. run.
  destruct (_join_update_times self !! join_id) as [l |] eqn:Hl;
    cbn -[Nat.leb].
  - destruct (Nat.leb _ _); reflexivity.
  - rewrite !insert_insert_eq. destruct (Nat.leb _ _); reflexivity.
Qed.

Lemma update_times_set join_id l tbl self :
  update_times join_id (set_join_update_times (<[join_id := l]> tbl) self) = l.
Proof. unfold update_times. cbn. rewrite lookup_insert_eq. reflexivity. Qed.

(** On a time-ordered list the expiry loop removes exactly the entries
    older than the window. *)
Lemma expire_sorted now updates :
  StronglySorted Z.le updates -> expire now updates = in_window now updates.
Proof.
  unfold in_window.
  induction 1 as [| t rest Hrest IH Hle]; [reflexivity |].
  cbn [expire]. destruct (JOIN_UPDATE_WINDOW <? now - t) eqn:Hold.
  - rewrite filter_cons_False by lia. exact IH.
  - rewrite filter_cons_True by lia. f_equal.
    symmetry. clear IH Hrest.
    induction Hle as [| t' rest' Ht' _ IH']; [reflexivity |].
    rewrite filter_cons_True by lia. f_equal. exact IH'.
Qed.

(** A list whose oldest entry is still in the window is left alone. *)
Lemma expire_fresh now updates :
  (forall t, head updates = Some t -> now - t <= JOIN_UPDATE_WINDOW) ->
  expire now updates = updates.
Proof.
  destruct updates as [| t rest]; [reflexivity |]. intros Hfresh. cbn.
  specialize (Hfresh t eq_refl).
  replace (JOIN_UPDATE_WINDOW <? now - t) with false by lia. reflexivity.
Qed.

Lemma available_writer self :
  available self = true -> bool_decide (is_Some (_writer self)) = true.
Proof.
  unfold available. intros Hon. apply bool_decide_eq_true.
  destruct (_writer self); [eauto |].
  rewrite andb_false_r in Hon. discriminate.
Qed.

(** ** The three setters *)

(** What [set_analog] does once the join is valid and the server is
    available: the rate limiter decides. *)
Lemma set_analog_available join value now self :
  0 < join <= MAX_ANALOG_JOIN -> available self = true ->
  set_analog join value now self =
  let join_id := "a" +:+ pretty join in
  let updates := expire now (update_times join_id self) in
  if (MAX_JOIN_UPDATES <=? length updates)%nat
  then Raise (rate_exceeded "analog" join_id)
         (set_join_update_times
            (<[join_id := updates]> (_join_update_times self)) self)
  else queue_put (send_analog join value)
         (set_join_update_times
            (<[join_id := updates ++ [now]]> (_join_update_times self)) self).
Proof.
  intros Hj Hon. unfold set_analog, set_analog_try. run.
  rewrite validate_analog_ok by exact Hj.
  rewrite Hon, (available_writer self Hon). cbn [negb].
  rewrite check_rate_limit_spec. cbn zeta.
  destruct (Nat.leb MAX_JOIN_UPDATES _); [reflexivity |].
  cbn [negb]. destruct (Nat.leb MAX_QUEUE_SIZE _); reflexivity.
Qed.

Lemma set_digital_available join value now self :
  0 < join <= MAX_DIGITAL_JOIN -> available self = true ->
  set_digital join value now self =
  let join_id := "d" +:+ pretty join in
  let updates := expire now (update_times join_id self) in
  if (MAX_JOIN_UPDATES <=? length updates)%nat
  then Raise (rate_exceeded "digital" join_id)
         (set_join_update_times
            (<[join_id := updates]> (_join_update_times self)) self)
  else queue_put (send_digital join value)
         (set_join_update_times
            (<[join_id := updates ++ [now]]> (_join_update_times self)) self).
Proof.
  intros Hj Hon. unfold set_digital, set_digital_try. run.
  rewrite validate_digital_ok by exact Hj.
  rewrite Hon, (available_writer self Hon). cbn [negb].
  rewrite check_rate_limit_spec. cbn zeta.
  destruct (Nat.leb MAX_JOIN_UPDATES _); [reflexivity |].
  cbn [negb]. destruct (Nat.leb MAX_QUEUE_SIZE _); reflexivity.
Qed.

Lemma set_serial_available join s now self :
  (length s <= 252)%nat -> available self = true ->
  set_serial join s now self =
  let join_id := "s" +:+ pretty join in
  let updates := expire now (update_times join_id self) in
  if (MAX_JOIN_UPDATES <=? length updates)%nat
  then Raise (rate_exceeded "serial" join_id)
         (set_join_update_times
            (<[join_id := updates]> (_join_update_times self)) self)
  else queue_put (send_serial join s)
         (set_join_update_times
            (<[join_id := updates ++ [now]]> (_join_update_times self)) self).
Proof.
  intros Hlen Hon. unfold set_serial, set_serial_try. run.
  rewrite Hon, (available_writer self Hon). cbn [negb].
  replace (252 <? length s)%nat with false
    by (symmetry; apply Nat.ltb_ge; lia).
  rewrite check_rate_limit_spec. cbn zeta.
  destruct (Nat.leb MAX_JOIN_UPDATES _); [reflexivity |].
  cbn [negb]. destruct (Nat.leb MAX_QUEUE_SIZE _); reflexivity.
Qed.

Lemma set_serial_too_long join s now self :
  available self = true -> (252 < length s)%nat ->
  set_serial join s now self = Raise (string_too_long s) self.
Proof.
  intros Hon Hlen. unfold set_serial, set_serial_try. run.
  rewrite Hon, (available_writer self Hon). cbn [negb].
  replace (252 <? length s)%nat with true
    by (symmetry; apply Nat.ltb_lt; lia). reflexivity.
Qed.

Lemma set_serial_unavailable join s now self :
  available self = false ->
  set_serial join s now self
  = Raise (ConnectionError "Failed to send serial value: "
             (Some (ConnectionError "Server not available" None))) self.
Proof.
  intros Hoff. unfold set_serial, set_serial_try. run.
  rewrite Hoff. reflexivity.
Qed.

(** C8 (amended).  With the server available, [set_serial] of a string of
    more than 252 characters ([len(string)], counted in code points) raises
    [ConnectionError] wrapping [ValueError("String too long (n>252)")]; the
    server object is exactly as before, so no send time is recorded, no
    command is queued and no byte is written. *)
Theorem serial_length_limit (join : Z) (s : list Z) (now : Z)
  (self : CrestronServer) :
  available self = true -> (252 < length s)%nat ->
  set_serial join s now self = Raise (string_too_long s) self /\
  forall r, set_serial join s now self = r ->
            _command_queue (final r) = _command_queue self /\
            wire (final r) = wire self /\
            _join_update_times (final r) = _join_update_times self.
Proof.
  intros Hon Hlen.
  pose proof (set_serial_too_long join s now self Hon Hlen) as Hraise.
  split; [exact Hraise |].
  intros r <-. rewrite Hraise. cbn. auto.
Qed.

Lemma serial_length_limit_witness :
  set_serial 3 (repeat 0x41 253) 1700000000000001 synced
  = Raise (string_too_long (repeat 0x41 253)) synced.
Proof.
  apply (serial_length_limit 3 (repeat 0x41 253) 1700000000000001 synced).
  - reflexivity.
  - vm_compute. lia.
Defined.

(** C8 as stated fails on a string that is short in characters and long in
    bytes: 127 times U+00E9 encodes to 254 bytes, and [set_serial] accepts
    it and queues the command. *)
Lemma serial_254_bytes_accepted :
  let s := repeat 0xE9 127 in
  (exists payload, Utf8.encode s = Some payload /\ (252 < length payload)%nat)
  /\ ~ exists e self', set_serial 3 s 1700000000000001 synced = Raise e self'.
Proof.
  split.
  - eexists. split; [vm_compute; reflexivity |]. vm_compute. lia.
  - intros (e & self' & Hraise). vm_compute in Hraise. discriminate Hraise.
Qed.

(** ** Frames that are not the sync byte *)

Lemma frame_inert_refl s : frame_inert s s.
Proof. split; reflexivity. Qed.

Lemma frame_inert_trans s1 s2 s3 :
  frame_inert s1 s2 -> frame_inert s2 s3 -> frame_inert s1 s3.
Proof.
  intros [Hc1 Hn1] [Hc2 Hn2]. split; [congruence |].
  intros v. rewrite Hn2. apply Hn1.
Qed.

Lemma preserves_ret {A} (a : A) : preserves (ret a).
Proof. intros self. apply frame_inert_refl. Qed.

Lemma preserves_raise {A} e : preserves (@raise A e).
Proof. intros self. apply frame_inert_refl. Qed.

Lemma preserves_get : preserves get.
Proof. intros self. apply frame_inert_refl. Qed.

Lemma preserves_bind {A B} (m : M A) (k : A -> M B) :
  preserves m -> (forall a, preserves (k a)) -> preserves (bind m k).
Proof.
  intros Hm Hk self. unfold bind. specialize (Hm self).
  destruct (m self) as [a s | e s | s]; cbn in *; [| exact Hm | exact Hm].
  eapply frame_inert_trans; [exact Hm | apply Hk].
Qed.

Lemma preserves_digital_tbl tbl : preserves (assign (set_digital_tbl tbl)).
Proof. intros self. split; reflexivity. Qed.

Lemma preserves_analog_tbl tbl : preserves (assign (set_analog_tbl tbl)).
Proof. intros self. split; reflexivity. Qed.

Lemma preserves_serial_tbl tbl : preserves (assign (set_serial_tbl tbl)).
Proof. intros self. split; reflexivity. Qed.

Lemma count_system_notify v join_id x self :
  count_system v (final (_notify_callbacks join_id x self))
  = (count_system v self
     + if String.eqb join_id "system" && bool_decide (x = PyStr (lit v))
       then 1 else 0)%nat.
Proof.
  unfold count_system, _notify_callbacks, assign. cbn.
  rewrite filter_app, length_app. f_equal.
  unfold is_system_event. cbn.
  destruct (_ && _); reflexivity.
Qed.

Lemma preserves_notify join_id x :
  String.eqb join_id "system" = false ->
  preserves (_notify_callbacks join_id x).
Proof.
  intros Hid self. split; [reflexivity |].
  intros v. rewrite count_system_notify, Hid. cbn. lia.
Qed.

(** No decimal numeral, prefixed with [s], spells ["system"]. *)
Lemma pretty_N_go_not_ystem x s :
  s <> "ystem" -> pretty_N_go x s <> "ystem".
Proof.
  revert s. induction (N.lt_wf_0 x) as [x _ IH]. intros s Hs.
  destruct (decide (x = 0%N)) as [-> | Hx].
  - rewrite pretty_N_go_0. exact Hs.
  - rewrite pretty_N_go_step by lia. apply IH.
    + apply N.div_lt; lia.
    + unfold pretty_N_char. repeat case_match; discriminate.
Qed.

Lemma serial_id_not_system (join : Z) :
  String.eqb ("s" +:+ pretty join) "system" = false.
Proof.
  apply String.eqb_neq. cbn. intros Heq. injection Heq as Heq.
  destruct join as [| p | p]; cbn in Heq; [discriminate | | discriminate].
  unfold pretty, pretty_positive, pretty, pretty_N in Heq.
  destruct (decide (N.pos p = 0%N)); [discriminate |].
  revert Heq. apply pretty_N_go_not_ystem. discriminate.
Qed.

Lemma preserves_read n r : preserves (read n r).
Proof.
  unfold read. repeat case_match;
    first [apply preserves_ret | apply preserves_raise].
Qed.

Lemma preserves_readuntil r : preserves (readuntil r).
Proof.
  unfold readuntil. repeat case_match;
    first [apply preserves_ret | apply preserves_raise].
Qed.

Lemma preserves_on_digital b0 b1 now : preserves (on_digital b0 b1 now).
Proof.
  unfold on_digital. apply preserves_bind; [apply preserves_get |].
  intros self. destruct (dd_get _ _ _) as [js tbl].
  apply preserves_bind; [apply preserves_digital_tbl | intros _].
  apply preserves_notify. reflexivity.
Qed.

Lemma preserves_on_analog b0 b1 b2 b3 now :
  preserves (on_analog b0 b1 b2 b3 now).
Proof.
  unfold on_analog. apply preserves_bind; [apply preserves_get |].
  intros self. destruct (dd_get _ _ _) as [js tbl].
  destruct (negb _); [| apply preserves_analog_tbl].
  apply preserves_bind; [apply preserves_analog_tbl | intros _].
  apply preserves_notify. reflexivity.
Qed.

Lemma preserves_on_serial b0 b1 body now :
  preserves (on_serial b0 b1 body now).
Proof.
  unfold on_serial. destruct (Utf8.decode body); [| apply preserves_raise].
  apply preserves_bind; [apply preserves_get |].
  intros self. destruct (dd_get _ _ _) as [js tbl].
  destruct (negb _); [| apply preserves_serial_tbl].
  apply preserves_bind; [apply preserves_serial_tbl | intros _].
  apply preserves_notify. apply serial_id_not_system.
Qed.

Lemma preserves_on_frame d0 r : preserves (on_frame d0 r).
Proof.
  unfold on_frame. apply preserves_bind; [apply preserves_read |].
  intros [more r1]. destruct more as [| d1 more]; [apply preserves_raise |].
  cbn zeta. destruct (Codec.is_digital _ _).
  { apply preserves_bind; [apply preserves_on_digital | intros _].
    apply preserves_ret. }
  destruct (Codec.is_analog _ _).
  { apply preserves_bind; [apply preserves_read |].
    intros [more2 r2].
    destruct more2 as [| d2 [| d3 [| d4 more2]]];
      try apply preserves_raise.
    apply preserves_bind; [apply preserves_on_analog | intros _].
    apply preserves_ret. }
  destruct (Codec.is_serial _ _); [| apply preserves_ret].
  apply preserves_bind; [apply preserves_readuntil |].
  intros [[body ff] r2].
  apply preserves_bind; [apply preserves_on_serial | intros _].
  apply preserves_ret.
Qed.

(** ** Progress of the read loop *)









(** ** The sync byte *)


(** The first sync byte outside the debounce window: the handshake. *)
Lemma on_sync_first w t self :
  SYNC_DEBOUNCE < t - _last_sync_request self ->
  _initial_sync_received self = false ->
  let s := final (on_sync w t self) in
  _available s = true /\ _command_event s = true /\
  _initial_sync_received s = true /\ _last_sync_request s = t /\
  _writer s = _writer self /\
  notified s = notified self ++ [system_event "connected" self] /\
  wire s = wire self ++ CMD_UPDATE_REQUEST /\
  (drain_fails w = false -> _sync_all_joins_callback self <> Some true ->
   on_sync w t self = Return tt s).
Proof.
  intros Hfar Hfirst. unfold on_sync, write_drain, _notify_callbacks. run.
  replace (SYNC_DEBOUNCE <? t - _last_sync_request self) with true by lia.
  rewrite Hfirst. cbn [negb].
  destruct (drain_fails w); cbn.
  - repeat split; try reflexivity. discriminate.
  - destruct (_sync_all_joins_callback self) as [[] |]; cbn;
      repeat split; try reflexivity; congruence.
Qed.


(** The four ways a pass of the loop can start. *)
Lemma iteration_cases w r self :
  (pending r = [] /\ ending r = EOF /\
   iteration w r self = Return (false, advance 1 r) (final (on_error self))) \/
  (pending r = [] /\ ending r = Reset /\
   exists e, iteration w r self = Raise e self) \/
  (exists d rest, pending r = d :: rest /\ rx_byte d = 0xFB /\
   iteration w r self
   = bind (on_sync w (rx_time d)) (fun _ => ret (true, advance 1 r)) self) \/
  (exists d rest, pending r = d :: rest /\ rx_byte d <> 0xFB /\
   iteration w r self = on_frame d (advance 1 r) self).
Proof.
  unfold iteration, read, on_error. run.
  destruct (pending r) as [| d rest] eqn:Hp.
  - destruct (ending r); [left | right; left]; cbn; eauto.
  - right; right. cbn [take].
    replace (match ending r with EOF | Reset => _ end)
      with (@Return (list rx * StreamReader) ([d], advance 1 r) self)
      by (destruct (ending r); reflexivity).
    destruct (rx_byte d =? 0xFB) eqn:Hb.
    + left. exists d, rest. split; [reflexivity |]. split; [lia |].
      reflexivity.
    + right. exists d, rest. split; [reflexivity |]. split; [lia |].
      reflexivity.
Qed.

(** ** Disconnecting *)

Lemma count_system_snoc v n s s' :
  notified s' = notified s ++ [n] ->
  count_system v s'
  = (count_system v s + if is_system_event v n then 1 else 0)%nat.
Proof.
  unfold count_system. intros ->. rewrite filter_app, length_app. f_equal.
  cbn. destruct (is_system_event v n); reflexivity.
Qed.


Lemma is_system_event_same v self :
  is_system_event v (system_event v self) = true.
Proof.
  unfold is_system_event, system_event. cbn [n_join_id n_value].
  rewrite String.eqb_refl. apply bool_decide_eq_true. reflexivity.
Qed.

(** The [except] clause (and the EOF branch, which runs the same three
    statements) switches the server off and notifies. *)
Lemma on_error_effect self :
  let s := final (on_error self) in
  _available s = false /\ _command_event s = false /\
  notified s = notified self ++ [system_event "disconnected" self] /\
  same_tables s self /\
  _initial_sync_received s = _initial_sync_received self /\
  _join_update_times s = _join_update_times self /\
  _command_queue s = _command_queue self /\ wire s = wire self /\
  _join_callbacks s = _join_callbacks self /\
  _global_callbacks s = _global_callbacks self.
Proof. cbn. unfold same_tables. repeat split; reflexivity. Qed.

Lemma cleanup_effect self :
  let s := final (cleanup self) in
  _writer s = None /\ _available s = false /\ _command_event s = false /\
  _initial_sync_received s = false /\
  notified s = notified self ++ [system_event "disconnected" self] /\
  same_tables s self /\
  _join_update_times s = _join_update_times self /\
  _command_queue s = _command_queue self /\ wire s = wire self /\
  _join_callbacks s = _join_callbacks self /\
  _global_callbacks s = _global_callbacks self.
Proof. cbn. unfold same_tables. repeat split; reflexivity. Qed.

Lemma accept_effect w self :
  let s := final (accept w self) in
  _writer s = Some w /\ _available s = _available self /\
  _initial_sync_received s = false /\ _last_sync_request s = 0 /\
  tables_cleared s /\ notified s = notified self /\
  wire s = wire self ++ CMD_UPDATE_REQUEST /\
  _join_update_times s = _join_update_times self /\
  _command_queue s = _command_queue self /\
  (drain_fails w = false -> accept w self = Return tt s).
Proof.
  unfold accept, write_drain, tables_cleared. run.
  destruct (drain_fails w); cbn; repeat split; try reflexivity.
  discriminate.
Qed.

Lemma unavailable_flag self : _available self = false -> available self = false.
Proof. unfold available. intros ->. reflexivity. Qed.

(** C3 (amended).  When the read of the loop returns EOF, the [available]
    flag and the command gate become false and ["disconnected"] goes out on
    the ["system"] channel, from the EOF branch and once more from the
    [finally] block, so twice in all; the three JoinState tables keep their
    entries, and are emptied when the next connection is accepted. *)
Theorem eof_disconnect (fuel : nat) (writer : StreamWriter)
  (self : CrestronServer) :
  exists s,
    eof_path fuel writer self = Some s /\
    available s = false /\ _available s = false /\
    _command_event s = false /\
    notified s = notified self ++ [system_event "disconnected" self;
                                   system_event "disconnected" self] /\
    count_system "disconnected" s
    = S (S (count_system "disconnected" self)) /\
    same_tables s self /\
    forall writer', tables_cleared (final (accept writer' s)).
Proof.
  eexists. split; [reflexivity |].
  split; [reflexivity |]. split; [reflexivity |]. split; [reflexivity |].
  split; [cbn; rewrite <- app_assoc; reflexivity |].
  split.
  - rewrite (count_system_snoc _ (system_event "disconnected" self)
               (final (on_error self))) by reflexivity.
    rewrite (count_system_snoc _ (system_event "disconnected" self) self)
      by reflexivity.
    rewrite is_system_event_same. lia.
  - split; [unfold same_tables; repeat split; reflexivity |].
    intros writer'. apply (accept_effect writer').
Qed.

(** C3 as stated fails on a connection in use: after EOF, ["disconnected"]
    has gone out twice, not once, and join 1 is still in the digital
    table. *)
Lemma eof_twice_tables_kept :
  exists s,
    eof_path 0 open_writer loaded = Some s /\
    count_system "disconnected" s
    <> S (count_system "disconnected" loaded) /\
    ~ tables_cleared s.
Proof.
  eexists. split; [reflexivity |]. split.
  - vm_compute. discriminate.
  - intros [Hdigital _].
    apply (f_equal (fun tbl : gmap Z JoinState.t => tbl !! 1)) in Hdigital.
    vm_compute in Hdigital. discriminate Hdigital.
Qed.

(** ** The handshake *)

(** Takes [Some x = Some s] from the goal and replaces [s]. *)
Ltac got_some :=
  let H := fresh in intros H; apply (inj Some) in H; subst.

Lemma control_fields s s' :
  control s' = control s ->
  _writer s' = _writer s /\ _available s' = _available s /\
  _command_queue s' = _command_queue s /\
  _join_update_times s' = _join_update_times s /\
  _initial_sync_received s' = _initial_sync_received s /\
  _last_sync_request s' = _last_sync_request s /\ wire s' = wire s.
Proof.
  unfold control. intros Hc. injection Hc. intros. repeat split; assumption.
Qed.





(** The pass that reads the first sync byte outside the debounce window. *)
Lemma iteration_first_sync w r d rest self :
  pending r = d :: rest -> rx_byte d = 0xFB ->
  _initial_sync_received self = false ->
  SYNC_DEBOUNCE < rx_time d - _last_sync_request self ->
  let s := final (iteration w r self) in
  _available s = true /\ _command_event s = true /\
  _initial_sync_received s = true /\ _last_sync_request s = rx_time d /\
  _writer s = _writer self /\
  notified s = notified self ++ [system_event "connected" self] /\
  count_system "connected" s = S (count_system "connected" self) /\
  (drain_fails w = false -> _sync_all_joins_callback self <> Some true ->
   iteration w r self = Return (true, advance 1 r) s).
Proof.
  intros Hp Hd Hfirst Hfar.
  destruct (iteration_cases w r self)
    as [(Hnil & _) | [(Hnil & _) | [(d' & rest' & Hp' & _ & ->)
        | (d' & rest' & Hp' & Hd' & _)]]];
    try (rewrite Hp in Hnil; discriminate Hnil);
    rewrite Hp in Hp'; injection Hp' as <- <-; [| contradiction].
  destruct (on_sync_first w (rx_time d) self Hfar Hfirst)
    as (Ha & Hg & Hi & Hl & Hw & Hn & _ & Hret).
  assert (Hfinal : final (bind (on_sync w (rx_time d))
                            (fun _ => ret (true, advance 1 r)) self)
                   = final (on_sync w (rx_time d) self)).
  { unfold bind. destruct (on_sync w (rx_time d) self); reflexivity. }
  cbn zeta. rewrite Hfinal.
  repeat (split; [assumption |]). split.
  - rewrite (count_system_snoc _ _ _ _ Hn), is_system_event_same. lia.
  - intros Hdrain Hhook. unfold bind. rewrite (Hret Hdrain Hhook).
    reflexivity.
Qed.







(** ** What the setters raise *)

Lemma kind_text c :
  "Failed to send " +:+ kind_of c +:+ " value: "
  = match c with
    | SetDigital _ _ => "Failed to send digital value: "
    | SetAnalog _ _ => "Failed to send analog value: "
    | SetSerial _ _ => "Failed to send serial value: "
    end.
Proof. destruct c; reflexivity. Qed.

(** [call] is [call_try] with every exception wrapped. *)
Lemma call_wraps c now self :
  call c now self =
  match call_try c now self with
  | Raise cause s =>
      Raise (ConnectionError ("Failed to send " +:+ kind_of c +:+ " value: ")
                             (Some cause)) s
  | r => r
  end.
Proof. destruct c; reflexivity. Qed.

(** With the server available and the arguments accepted, the rate limiter
    decides. *)
Lemma call_available c now self :
  accepted c -> available self = true ->
  call c now self =
  let updates := expire now (update_times (join_id_of c) self) in
  if (MAX_JOIN_UPDATES <=? length updates)%nat
  then Raise (rate_exceeded (kind_of c) (join_id_of c))
         (set_join_update_times
            (<[join_id_of c := updates]> (_join_update_times self)) self)
  else queue_put (command_of c)
         (set_join_update_times
            (<[join_id_of c := updates ++ [now]]> (_join_update_times self))
            self).
Proof.
  destruct c as [join value | join value | join s]; intros Hok Hon.
  - apply set_digital_available; assumption.
  - apply set_analog_available; assumption.
  - apply set_serial_available; assumption.
Qed.

(** The setters leave the three tables alone, and a setter that returns
    has queued its closure. *)
Lemma queues_raise c self e : queues c self (Raise e self).
Proof. repeat split. discriminate. Qed.

Lemma queues_put c times self :
  queues c self
    (queue_put (command_of c) (set_join_update_times times self)).
Proof.
  unfold queue_put. destruct (Nat.leb _ _); repeat split; try discriminate.
  intros s [= <-]. reflexivity.
Qed.

Lemma queues_limited c join_id now self :
  queues c self
    (bind (_check_rate_limit join_id now)
       (fun ok : bool =>
          if negb ok
          then raise (HomeAssistantError
                        ("Join " +:+ join_id +:+ " update rate exceeded"))
          else queue_put (command_of c)) self).
Proof.
  unfold bind. rewrite check_rate_limit_spec. cbn zeta.
  destruct (Nat.leb MAX_JOIN_UPDATES _); cbn [negb].
  - repeat split. discriminate.
  - apply queues_put.
Qed.

Lemma call_try_effect c now self : queues c self (call_try c now self).
Proof.
  destruct c as [join value | join value | join str];
    unfold call_try, set_digital_try, set_analog_try, set_serial_try;
    unfold bind at 1.
  - destruct (validate_cases join "d" self) as [-> | [msg ->]];
      [| apply queues_raise].
    unfold bind at 1, get.
    destruct (negb (available self)); [apply queues_raise |].
    destruct (negb (bool_decide _)); [apply queues_raise |].
    apply (queues_limited (SetDigital join value)).
  - destruct (validate_cases join "a" self) as [-> | [msg ->]];
      [| apply queues_raise].
    unfold bind at 1, get.
    destruct (negb (available self)); [apply queues_raise |].
    destruct (negb (bool_decide _)); [apply queues_raise |].
    apply (queues_limited (SetAnalog join value)).
  - unfold get.
    destruct (negb (available self)); [apply queues_raise |].
    destruct (negb (bool_decide _)); [apply queues_raise |].
    destruct (Nat.ltb 252 _); [apply queues_raise |].
    apply (queues_limited (SetSerial join str)).
Qed.

Lemma call_effect c now self : queues c self (call c now self).
Proof.
  rewrite call_wraps.
  destruct (call_try_effect c now self) as (Ht & Hw & Hq).
  destruct (call_try c now self) as [[] s | e s | s]; cbn [final] in *.
  - repeat split; try apply Ht; auto.
  - repeat split; try apply Ht; try exact Hw. discriminate.
  - repeat split; try apply Ht; try exact Hw. discriminate.
Qed.

(** C9.  Whatever [set_digital], [set_analog] or [set_serial] raises is a
    [ConnectionError] that wraps the exception raised by the statements
    under [try], as its cause, and every exception raised there comes out
    that way; this holds for a join outside 1..65535 ([ValueError] from
    [_validate_join]), for a refusal of the rate limiter
    ([HomeAssistantError]) and for a string of more than 252 characters
    ([ValueError]). *)
Theorem setters_raise_connection_error (c : setter) (now : Z)
  (self : CrestronServer) :
  (forall e s, call c now self = Raise e s ->
     exists cause,
       e = ConnectionError ("Failed to send " +:+ kind_of c +:+ " value: ")
                           (Some cause) /\
       call_try c now self = Raise cause s) /\
  (forall cause s, call_try c now self = Raise cause s ->
     call c now self
     = Raise (ConnectionError ("Failed to send " +:+ kind_of c +:+ " value: ")
                              (Some cause)) s) /\
  (forall join, ~ 0 < join <= 65535 ->
     (forall value, exists msg,
        set_digital join value now self
        = Raise (ConnectionError "Failed to send digital value: "
                                 (Some (ValueError msg))) self) /\
     (forall value, exists msg,
        set_analog join value now self
        = Raise (ConnectionError "Failed to send analog value: "
                                 (Some (ValueError msg))) self)) /\
  (accepted c -> available self = true ->
   (MAX_JOIN_UPDATES
    <= length (expire now (update_times (join_id_of c) self)))%nat ->
   exists s,
     call c now self
     = Raise (ConnectionError ("Failed to send " +:+ kind_of c +:+ " value: ")
                (Some (HomeAssistantError
                         ("Join " +:+ join_id_of c
                          +:+ " update rate exceeded")))) s) /\
  (forall join s, available self = true -> (252 < length s)%nat ->
     exists msg,
       set_serial join s now self
       = Raise (ConnectionError "Failed to send serial value: "
                                (Some (ValueError msg))) self).
Proof.
  split; [| split; [| split; [| split]]].
  - intros e s. rewrite call_wraps.
    destruct (call_try c now self) as [[] s1 | cause s1 | s1];
      try discriminate.
    intros [= <- <-]. eauto.
  - intros cause s Htry. rewrite call_wraps, Htry. reflexivity.
  - intros join Hbad. split; intros value.
    + unfold set_digital, set_digital_try. run.
      rewrite validate_digital_bad by exact Hbad. eauto.
    + unfold set_analog, set_analog_try. run.
      rewrite validate_analog_bad by exact Hbad. eauto.
  - intros Hok Hon Hfull. rewrite call_available by assumption. cbn zeta.
    apply Nat.leb_le in Hfull. rewrite Hfull. eexists. reflexivity.
  - intros join s Hon Hlen. rewrite set_serial_too_long by assumption.
    eexists. reflexivity.
Qed.

Lemma setters_raise_connection_error_witness :
  exists msg,
    set_digital 0 true 1700000000000001 synced
    = Raise (ConnectionError "Failed to send digital value: "
                             (Some (ValueError msg))) synced.
Proof.
  destruct (setters_raise_connection_error (SetDigital 0 true)
              1700000000000001 synced) as (_ & _ & Hjoin & _).
  destruct (Hjoin 0 ltac:(lia)) as [Hdigital _].
  exact (Hdigital true).
Defined.

(** ** Running the queued closures *)

(** [|] of two bytes is a byte. *)
Lemma lor_byte a b :
  0 <= a <= 255 -> 0 <= b <= 255 -> 0 <= Z.lor a b <= 255.
Proof.
  intros Ha Hb.
  assert (Hmod : Z.lor a b = Z.lor a b mod 2 ^ 8).
  { apply Z.bits_inj'. intros i Hi.
    destruct (Z.lt_ge_cases i 8) as [Hlow | Hhigh].
    - rewrite Z.mod_pow2_bits_low by lia. reflexivity.
    - rewrite Z.mod_pow2_bits_high, Z.lor_spec by lia.
      rewrite <- (Z.mod_small a (2 ^ 8)), <- (Z.mod_small b (2 ^ 8))
        by (change (2 ^ 8) with 256; lia).
      rewrite !Z.mod_pow2_bits_high by lia. reflexivity. }
  rewrite Hmod. change (2 ^ 8) with 256. divlia.
Qed.

Lemma analog_frame_packs join value :
  1 <= join <= 32768 ->
  Codec.analog_frame join value
  = Some [Codec.analog_b0 join value; Codec.analog_b1 join;
          Codec.analog_b2 value; Codec.analog_b3 value].
Proof.
  intros Hj. apply pack_B_bytes.
  unfold Codec.analog_b0, Codec.analog_b1, Codec.analog_b2, Codec.analog_b3.
  rewrite !BitFacts.land_7F, BitFacts.land_30, !Z.shiftr_div_pow2 by lia.
  change (2 ^ 7) with 128. change (2 ^ 10) with 1024.
  repeat constructor; try divlia.
  - apply lor_byte; [apply lor_byte |]; divlia.
  - apply lor_byte; [apply lor_byte |]; divlia.
Qed.

Lemma serial_header_packs join :
  1 <= join <= 32768 ->
  exists header, Codec.serial_header join = Some header.
Proof.
  intros Hj. eexists. apply pack_B_bytes.
  rewrite !BitFacts.land_7F, !Z.shiftr_div_pow2 by lia.
  change (2 ^ 7) with 128.
  repeat constructor; try divlia.
  - apply lor_byte; divlia.
  - apply lor_byte; divlia.
Qed.

Lemma self_write_drain_ok w data self :
  _writer self = Some w -> drain_fails w = false ->
  self_write_drain data self = Return tt (set_wire (wire self ++ data) self).
Proof.
  intros Hw Hdrain. unfold self_write_drain, write_drain. run.
  rewrite Hw, Hdrain. reflexivity.
Qed.

Lemma self_write_drain_tables data self :
  same_tables (final (self_write_drain data self)) self.
Proof.
  unfold self_write_drain, write_drain, same_tables. run.
  destruct (_writer self) as [w |]; [| repeat split].
  destruct (drain_fails w); repeat split.
Qed.

Lemma self_write_drain_returns data self s :
  self_write_drain data self = Return tt s ->
  s = set_wire (wire self ++ data) self.
Proof.
  unfold self_write_drain, write_drain. run.
  destruct (_writer self) as [w |]; [| discriminate].
  destruct (drain_fails w); [discriminate |].
  intros [= <-]. reflexivity.
Qed.

Lemma send_digital_tables join value now self :
  same_tables (final (send_command (send_digital join value) now self)) self.
Proof.
  cbn [send_command]. destruct (Codec.digital_frame join value).
  - apply self_write_drain_tables.
  - repeat split.
Qed.

(** A digital frame that comes in is stored. *)
Lemma on_digital_stores b0 b1 now self :
  _digital (final (on_digital b0 b1 now self))
  = <[Codec.digital_join b0 b1 :=
        touch (PyBool (Codec.digital_value b0 =? 1)) now
              (entry (_digital self) (Codec.digital_join b0 b1))]>
      (_digital self).
Proof.
  unfold on_digital, _notify_callbacks, dd_get, entry. run.
  destruct (_digital self !! Codec.digital_join b0 b1); cbn;
    rewrite ?insert_insert_eq; reflexivity.
Qed.

Lemma send_analog_returns join value now self s :
  send_command (send_analog join value) now self = Return tt s ->
  _analog s
  = <[join := touch (PyInt value) now (entry (_analog self) join)]>
      (_analog self) /\
  _digital s = _digital self /\ _serial s = _serial self.
Proof.
  cbn [send_command].
  destruct (Codec.analog_frame join value) as [data |]; [| discriminate].
  unfold bind.
  destruct (self_write_drain data self) as [[] s1 | |] eqn:Hwrite;
    try discriminate.
  apply self_write_drain_returns in Hwrite as ->.
  unfold assign. intros [= <-]. unfold dd_get, entry.
  cbn [_analog set_wire].
  destruct (_analog self !! join); cbn; rewrite ?insert_insert_eq; auto.
Qed.

Lemma send_serial_returns join str now self s :
  send_command (send_serial join str) now self = Return tt s ->
  _serial s
  = <[join := touch (PyStr str) now (entry (_serial self) join)]>
      (_serial self) /\
  _digital s = _digital self /\ _analog s = _analog self.
Proof.
  cbn [send_command].
  destruct (Codec.serial_header join) as [header |]; [| discriminate].
  destruct (Utf8.encode str) as [payload |]; [| discriminate].
  unfold bind.
  destruct (self_write_drain _ self) as [[] s1 | |] eqn:Hwrite;
    try discriminate.
  apply self_write_drain_returns in Hwrite as ->.
  unfold assign. intros [= <-]. unfold dd_get, entry.
  cbn [_serial set_wire].
  destruct (_serial self !! join); cbn; rewrite ?insert_insert_eq; auto.
Qed.

Lemma send_analog_runs join value now self w :
  _writer self = Some w -> drain_fails w = false -> 1 <= join <= 32768 ->
  exists s, send_command (send_analog join value) now self = Return tt s.
Proof.
  intros Hw Hdrain Hj. cbn [send_command].
  rewrite analog_frame_packs by exact Hj. unfold bind.
  rewrite (self_write_drain_ok w) by assumption.
  unfold assign. eauto.
Qed.

Lemma send_serial_runs join str payload now self w :
  _writer self = Some w -> drain_fails w = false -> 1 <= join <= 32768 ->
  Utf8.encode str = Some payload ->
  exists s, send_command (send_serial join str) now self = Return tt s.
Proof.
  intros Hw Hdrain Hj Henc. cbn [send_command].
  destruct (serial_header_packs join Hj) as [header ->].
  rewrite Henc. unfold bind.
  rewrite (self_write_drain_ok w) by assumption.
  unfold assign. eauto.
Qed.

(** C6.  Write-back policy.  The closure queued by [set_digital] leaves the
    three tables as they are, however it ends (the digital table changes
    when the read loop decodes a digital frame); the closures queued by
    [set_analog] and [set_serial], when they run to their end, have stored
    the value sent, the time of sending and an update count one higher in
    the entry of their join, and nothing else in the tables; and they do
    run to their end when the writer is there, [drain] succeeds and the
    frame can be packed (join 1..32768, and a string that encodes).  The
    setters themselves leave the tables alone and queue exactly these
    closures. *)
Theorem write_back_policy (join : Z) (now : Z) (self : CrestronServer) :
  (forall value,
     same_tables (final (send_command (send_digital join value) now self))
                 self) /\
  (forall b0 b1,
     _digital (final (on_digital b0 b1 now self))
       !! Codec.digital_join b0 b1
     = Some {| JoinState.value := PyBool (Codec.digital_value b0 =? 1);
               JoinState.last_update := now;
               JoinState.update_count :=
                 JoinState.update_count
                   (entry (_digital self) (Codec.digital_join b0 b1)) + 1 |})
  /\
  (forall value s,
     send_command (send_analog join value) now self = Return tt s ->
     _analog s !! join
     = Some {| JoinState.value := PyInt value;
               JoinState.last_update := now;
               JoinState.update_count :=
                 JoinState.update_count (entry (_analog self) join) + 1 |} /\
     (forall j, j <> join -> _analog s !! j = _analog self !! j) /\
     _digital s = _digital self /\ _serial s = _serial self) /\
  (forall str s,
     send_command (send_serial join str) now self = Return tt s ->
     _serial s !! join
     = Some {| JoinState.value := PyStr str;
               JoinState.last_update := now;
               JoinState.update_count :=
                 JoinState.update_count (entry (_serial self) join) + 1 |} /\
     (forall j, j <> join -> _serial s !! j = _serial self !! j) /\
     _digital s = _digital self /\ _analog s = _analog self) /\
  (forall w, _writer self = Some w -> drain_fails w = false ->
     1 <= join <= 32768 ->
     (forall value,
        exists s, send_command (send_analog join value) now self
                  = Return tt s) /\
     (forall str payload, Utf8.encode str = Some payload ->
        exists s, send_command (send_serial join str) now self
                  = Return tt s)) /\
  (forall c t, queues c self (call c t self)).
Proof.
  split; [| split; [| split; [| split; [| split]]]].
  - intros value. apply send_digital_tables.
  - intros b0 b1. rewrite on_digital_stores. apply lookup_insert_eq.
  - intros value s Hrun.
    apply send_analog_returns in Hrun as (-> & Hd & Hs).
    rewrite lookup_insert_eq. repeat split; try assumption.
    intros j Hj. apply lookup_insert_ne. congruence.
  - intros str s Hrun.
    apply send_serial_returns in Hrun as (-> & Hd & Ha).
    rewrite lookup_insert_eq. repeat split; try assumption.
    intros j Hj. apply lookup_insert_ne. congruence.
  - intros w Hw Hdrain Hj. split.
    + intros value. eapply send_analog_runs; eassumption.
    + intros str payload Henc. eapply send_serial_runs; eassumption.
  - intros c t. apply call_effect.
Qed.

Lemma write_back_policy_witness :
  (exists s, send_command (send_analog 1 1000) 1700000000000002 synced
             = Return tt s) /\
  (exists s, send_command (send_serial 1 (lit "on")) 1700000000000002 synced
             = Return tt s).
Proof.
  destruct (write_back_policy 1 1700000000000002 synced)
    as (_ & _ & _ & _ & Hruns & _).
  destruct (Hruns open_writer eq_refl eq_refl ltac:(lia))
    as [Hanalog Hserial].
  split.
  - exact (Hanalog 1000).
  - exact (Hserial (lit "on") [111; 110] eq_refl).
Defined.

(** ** The window of the rate limiter *)

Lemma ticks_sorted t0 step n : 0 <= step -> StronglySorted Z.le (ticks t0 step n).
Proof.
  intros Hstep. unfold ticks. generalize 0%nat as a.
  induction n as [| n IH]; intros a; cbn; constructor; [apply IH |].
  apply Forall_forall. intros t Ht.
  apply list_elem_of_In, in_map_iff in Ht as (i & <- & Hi).
  apply in_seq in Hi. nia.
Qed.

Lemma in_window_all now updates :
  (forall t, t ∈ updates -> now - t <= JOIN_UPDATE_WINDOW) ->
  in_window now updates = updates.
Proof.
  unfold in_window. induction updates as [| t rest IH]; intros Hall;
    [reflexivity |].
  rewrite filter_cons_True by (apply Hall; left).
  f_equal. apply IH. intros t' Ht'. apply Hall. right. exact Ht'.
Qed.

Lemma in_window_none now updates :
  (forall t, t ∈ updates -> JOIN_UPDATE_WINDOW < now - t) ->
  in_window now updates = [].
Proof.
  unfold in_window. induction updates as [| t rest IH]; intros Hall;
    [reflexivity |].
  rewrite filter_cons_False by (specialize (Hall t ltac:(left)); lia).
  apply IH. intros t' Ht'. apply Hall. right. exact Ht'.
Qed.

(** Calls that all fall in one window, fewer than the limit with what is
    recorded already, are all admitted and all recorded. *)
Lemma check_all_admits join_id clock :
  forall recorded self,
    update_times join_id self = recorded ->
    (length recorded + length clock <= MAX_JOIN_UPDATES)%nat ->
    (forall x y, x ∈ recorded ++ clock -> y ∈ clock ->
                 y - x <= JOIN_UPDATE_WINDOW) ->
    exists s,
      check_all join_id clock self = (repeat true (length clock), s) /\
      update_times join_id s = recorded ++ clock.
Proof.
  induction clock as [| now clock IH]; intros recorded self Hrec Hlen Hwin.
  - exists self. rewrite app_nil_r. auto.
  - cbn [check_all length repeat]. rewrite check_rate_limit_spec, Hrec.
    cbn zeta.
    assert (Hfresh : expire now recorded = recorded).
    { apply expire_fresh. intros t Ht. apply Hwin; [| left].
      apply elem_of_app. left. destruct recorded; [discriminate |].
      injection Ht as ->. left. }
    rewrite Hfresh.
    replace (MAX_JOIN_UPDATES <=? length recorded)%nat with false
      by (symmetry; apply Nat.leb_gt; cbn [length] in Hlen; lia).
    destruct (IH (recorded ++ [now])
                (set_join_update_times
                   (<[join_id := recorded ++ [now]]> (_join_update_times self))
                   self)) as (s & Hall & Htimes).
    + apply update_times_set.
    + rewrite length_app. cbn [length] in *. lia.
    + intros x y Hx Hy. apply Hwin; [| right; exact Hy].
      rewrite <- app_assoc in Hx. exact Hx.
    + exists s. rewrite Hall, Htimes, <- app_assoc. auto.
Qed.

(** ** Inbound frames and the rate limiter *)

Lemma on_sync_times w t self :
  _join_update_times (final (on_sync w t self)) = _join_update_times self.
Proof.
  unfold on_sync, write_drain, _notify_callbacks. run.
  destruct (_ <? _); [| reflexivity].
  destruct (negb _); cbn.
  - destruct (drain_fails w); cbn; [reflexivity |].
    destruct (_sync_all_joins_callback self) as [[] |]; reflexivity.
  - destruct (_sync_all_joins_callback self) as [[] |]; reflexivity.
Qed.

Lemma iteration_times w r self :
  _join_update_times (final (iteration w r self)) = _join_update_times self.
Proof.
  destruct (iteration_cases w r self)
    as [(_ & _ & ->) | [(_ & _ & e & ->) | [(d & rest & _ & _ & ->)
        | (d & rest & _ & _ & ->)]]].
  - reflexivity.
  - reflexivity.
  - pose proof (on_sync_times w (rx_time d) self) as Hsync. unfold bind.
    destruct (on_sync w (rx_time d) self); exact Hsync.
  - destruct (preserves_on_frame d (advance 1 r) self) as [Hc _].
    apply control_fields in Hc as (_ & _ & _ & Ht & _). exact Ht.
Qed.

Lemma read_loop_times fuel w r self s :
  read_loop fuel w r self = Some s ->
  _join_update_times s = _join_update_times self.
Proof.
  revert r self s. induction fuel as [| fuel IH]; intros r self s;
    [discriminate |].
  cbn [read_loop]. pose proof (iteration_times w r self) as Hiter.
  destruct (iteration w r self) as [[[] r'] s1 | e s1 | s1];
    cbn [final] in Hiter.
  - intros Hloop. apply IH in Hloop. congruence.
  - got_some. exact Hiter.
  - got_some. exact Hiter.
  - got_some. exact Hiter.
Qed.

Lemma handle_connection_times r w self s :
  handle_connection r w self = Some s ->
  _join_update_times s = _join_update_times self.
Proof.
  unfold handle_connection.
  destruct (accept_effect w self) as (_ & _ & _ & _ & _ & _ & _ & Ht & _).
  destruct (accept w self) as [[] s1 | e s1 | s1]; cbn [final] in Ht.
  - destruct (read_loop _ w r s1) as [s2 |] eqn:Hloop; [| discriminate].
    cbn [option_map]. got_some. apply read_loop_times in Hloop.
    rewrite <- Ht, <- Hloop. reflexivity.
  - cbn [option_map final]. got_some. exact Ht.
  - cbn [option_map final]. got_some. exact Ht.
Qed.

Lemma expire_all_old now updates :
  (forall t, t ∈ updates -> JOIN_UPDATE_WINDOW < now - t) ->
  expire now updates = [].
Proof.
  induction updates as [| t rest IH]; intros Hold; [reflexivity |].
  cbn [expire].
  replace (JOIN_UPDATE_WINDOW <? now - t) with true
    by (specialize (Hold t ltac:(left)); lia).
  apply IH. intros t' Ht'. apply Hold. right. exact Ht'.
Qed.

(** C7.  Rate limiting, per join id.  With the arguments accepted, the
    server available and the recorded send times in time order: when the
    window of 1.0 s ending now holds 1000 recorded sends or more, the
    setter raises the rate-limit error ([HomeAssistantError "Join ... update
    rate exceeded"], wrapped in [ConnectionError] like every error of the
    setters), records no send time (the recorded list is just cut down to
    the window), queues nothing and writes nothing; when it holds fewer,
    the setter does not raise, records the time, and queues its closure
    (unless the queue is full, where it waits).  So from an empty record a
    thousand checks within one window are admitted, the next one in that
    window is refused, and a check made when those sends are all more than
    1.0 s old is admitted again.  Handling a connection, with all the
    frames it receives, leaves the recorded send times as they are. *)
Theorem rate_limiting_window (c : setter) (now : Z) (self : CrestronServer) :
  let id := join_id_of c in
  let recent := in_window now (update_times id self) in
  (accepted c -> available self = true ->
   StronglySorted Z.le (update_times id self) ->
   ((MAX_JOIN_UPDATES <= length recent)%nat ->
    exists s,
      call c now self = Raise (rate_exceeded (kind_of c) id) s /\
      update_times id s = recent /\
      _command_queue s = _command_queue self /\ wire s = wire self) /\
   ((length recent < MAX_JOIN_UPDATES)%nat ->
    (forall e s, call c now self <> Raise e s) /\
    update_times id (final (call c now self)) = recent ++ [now] /\
    ((length (_command_queue self) < MAX_QUEUE_SIZE)%nat ->
     exists s, call c now self = Return tt s /\
               _command_queue s = _command_queue self ++ [command_of c])))
  /\
  (forall clock next later,
     update_times id self = [] ->
     length clock = MAX_JOIN_UPDATES ->
     (forall x y, x ∈ clock -> y ∈ clock ++ [next] ->
                  y - x <= JOIN_UPDATE_WINDOW) ->
     (forall t, t ∈ clock -> JOIN_UPDATE_WINDOW < later - t) ->
     exists s1000 s1001 s',
       check_all id clock self = (repeat true MAX_JOIN_UPDATES, s1000) /\
       _check_rate_limit id next s1000 = Return false s1001 /\
       update_times id s1001 = clock /\
       _check_rate_limit id later s1001 = Return true s' /\
       update_times id s' = [later]) /\
  (forall r w s, handle_connection r w self = Some s ->
                 _join_update_times s = _join_update_times self).
Proof.
  cbn zeta. split; [| split].
  - intros Hok Hon Hsorted.
    rewrite <- (expire_sorted now _ Hsorted).
    rewrite (call_available c now self Hok Hon). cbn zeta. split.
    + intros Hfull. apply Nat.leb_le in Hfull. rewrite Hfull.
      eexists. split; [reflexivity |].
      split; [apply update_times_set |]. split; reflexivity.
    + intros Hroom. apply Nat.leb_gt in Hroom. rewrite Hroom.
      unfold queue_put. cbn [_command_queue set_join_update_times].
      destruct (Nat.leb MAX_QUEUE_SIZE (length (_command_queue self)))
        eqn:Hqueue.
      * split; [discriminate |]. split; [apply update_times_set |].
        apply Nat.leb_le in Hqueue. lia.
      * split; [discriminate |]. split; [apply update_times_set |].
        intros _. eexists. split; reflexivity.
  - intros clock next later Hempty Hlen Hwin Hold.
    destruct (check_all_admits (join_id_of c) clock [] self Hempty)
      as (s1000 & Hall & Htimes).
    + cbn [length]. lia.
    + intros x y Hx Hy. apply Hwin; [exact Hx |].
      apply elem_of_app. left. exact Hy.
    + rewrite Hlen in Hall. cbn [app] in Htimes.
      exists s1000. eexists. eexists.
      split; [exact Hall |].
      rewrite check_rate_limit_spec, Htimes. cbn zeta.
      assert (Hfresh : expire next clock = clock).
      { apply expire_fresh. intros t Ht. apply Hwin.
        - destruct clock; [discriminate |]. injection Ht as ->. left.
        - apply elem_of_app. right. left. }
      rewrite Hfresh.
      replace (MAX_JOIN_UPDATES <=? length clock)%nat with true
        by (symmetry; apply Nat.leb_le; lia).
      split; [reflexivity |]. split; [apply update_times_set |].
      rewrite check_rate_limit_spec, update_times_set. cbn zeta.
      rewrite (expire_all_old later clock Hold).
      split; [reflexivity |]. apply update_times_set.
  - intros r w s. apply handle_connection_times.
Qed.

Lemma rate_limiting_window_witness :
  exists s,
    set_analog 1 1000 1700000000999900 busy
    = Raise (rate_exceeded "analog" "a1") s /\
    update_times "a1" s = ticks 1700000000000001 1000 1000 /\
    _command_queue s = _command_queue busy /\ wire s = wire busy.
Proof.
  assert (Htimes : update_times "a1" busy = ticks 1700000000000001 1000 1000)
    by (vm_compute; reflexivity).
  destruct (rate_limiting_window (SetAnalog 1 1000) 1700000000999900 busy)
    as (Hset & _).
  destruct Hset as (Hrefused & _).
  - unfold accepted, MAX_ANALOG_JOIN. lia.
  - vm_compute. reflexivity.
  - change (join_id_of (SetAnalog 1 1000)) with "a1". rewrite Htimes.
    apply ticks_sorted. lia.
  - assert (Hrecent : in_window 1700000000999900 (update_times "a1" busy)
                      = ticks 1700000000000001 1000 1000)
      by (vm_compute; reflexivity).
    change (join_id_of (SetAnalog 1 1000)) with "a1" in Hrefused.
    rewrite Hrecent in Hrefused.
    apply Hrefused. vm_compute. lia.
Defined.

(** ** Round trips through the read loop *)

Lemma on_digital_returns b0 b1 now self :
  on_digital b0 b1 now self = Return tt (final (on_digital b0 b1 now self)).
Proof.
  unfold on_digital, _notify_callbacks. run.
  destruct (dd_get _ _ _). reflexivity.
Qed.



(** The pass of the loop over a digital frame. *)
Lemma iteration_digital w b0 b1 t0 t1 rest e self n v :
  decode_digital b0 b1 = Some (n, v) ->
  iteration w {| pending := {| rx_byte := b0; rx_time := t0 |}
                            :: {| rx_byte := b1; rx_time := t1 |} :: rest;
                 ending := e |} self
  = Return (true, {| pending := rest; ending := e |})
           (final (on_digital b0 b1 t1 self)).
Proof.
  unfold decode_digital. destruct (Codec.is_digital b0 b1) eqn:Hd;
    [intros _ | discriminate].
  assert (Hb : (b0 =? 0xFB) = false).
  { destruct (b0 =? 0xFB) eqn:Hb; [| reflexivity].
    apply Z.eqb_eq in Hb. subst b0. vm_compute in Hd.
    destruct (Z.land b1 128); discriminate Hd. }
  unfold iteration, on_frame, read. run.
  cbn -[on_digital Codec.is_digital Z.eqb].
  rewrite Hb, Hd, on_digital_returns. reflexivity.
Qed.


(** C1 (amended).  A digital frame has two marker bits, the sense bit and
    five-plus-seven join bits, so it carries the joins 1..4096: for every
    such join [n] and every boolean [v], the two bytes packed by
    [set_digital]'s closure are taken by the read loop as a digital frame
    and read back as [(n, v)]; the pass of the loop that receives them goes
    on and leaves [v] in the digital table at join [n]. *)
Theorem digital_roundtrip_4096 (n : Z) (v : bool) :
  1 <= n <= 4096 ->
  digital_roundtrip n v /\
  forall w t rest e self,
  exists b0 b1 s,
    Codec.digital_frame n v = Some [b0; b1] /\
    iteration w {| pending := {| rx_byte := b0; rx_time := t |}
                              :: {| rx_byte := b1; rx_time := t |} :: rest;
                   ending := e |} self
    = Return (true, {| pending := rest; ending := e |}) s /\
    _digital s !! n
    = Some {| JoinState.value := PyBool v; JoinState.last_update := t;
              JoinState.update_count :=
                JoinState.update_count (entry (_digital self) n) + 1 |}.
Proof.
  intros Hn.
  pose proof (digital_frame_decodes n v Hn) as Hround.
  split; [exact Hround |].
  destruct Hround as (b0 & b1 & Hframe & Hdecode).
  intros w t rest e self. exists b0, b1. eexists.
  split; [exact Hframe |].
  split; [apply (iteration_digital w b0 b1 t t rest e self n v Hdecode) |].
  rewrite on_digital_stores.
  unfold decode_digital in Hdecode.
  destruct (Codec.is_digital b0 b1); [| discriminate].
  injection Hdecode as -> ->. apply lookup_insert_eq.
Qed.

Lemma digital_roundtrip_4096_witness : digital_roundtrip 10 true.
Proof. apply (digital_roundtrip_4096 10 true). lia. Defined.

(** C1 as stated fails above 4096: join 4097 set ON is packed as
    [A0 00], which the read loop takes for join 1 OFF. *)
Lemma digital_roundtrip_4097_fails : ~ digital_roundtrip 4097 true.
Proof.
  intros (b0 & b1 & Hframe & Hdecode).
  vm_compute in Hframe. injection Hframe as <- <-.
  vm_compute in Hdecode. discriminate Hdecode.
Qed.




(** * Further properties of the server *)

(** ** The callback registry *)

Lemma notify_recipients join_id v self :
  notified (final (_notify_callbacks join_id v self))
  = notified self ++ [{| n_join_id := join_id; n_value := v;
                         n_recipients := recipients_of join_id self |}].
Proof. reflexivity. Qed.

Lemma recipients_register_same join_id cb self :
  cb ∈ recipients_of join_id (final (register_callback join_id cb self)).
Proof.
  unfold recipients_of, register_callback, assign. cbn [final].
  destruct (String.eqb join_id "system") eqn:Hsys.
  - cbn; rewrite ?Hsys. apply elem_of_app. right.
    apply elem_of_elements. set_solver.
  - cbn. rewrite lookup_insert_eq. apply elem_of_app. left.
    apply elem_of_elements. set_solver.
Qed.

Lemma recipients_register_other join_id cb other self :
  other <> join_id ->
  recipients_of other (final (register_callback join_id cb self))
  = recipients_of other self.
Proof.
  intros Hne. unfold recipients_of, register_callback, assign. cbn [final].
  destruct (String.eqb join_id "system") eqn:Hsys.
  - apply String.eqb_eq in Hsys. subst join_id.
    apply String.eqb_neq in Hne. cbn. rewrite Hne. reflexivity.
  - cbn. rewrite lookup_insert_ne by congruence. reflexivity.
Qed.

(** X1.  After [register_callback(join_id, cb)] every notification for
    [join_id] calls [cb]; the callbacks called for any other join id are
    the same as before; and registering the same callback again changes
    nothing (the registry holds sets). *)
Theorem register_callback_reaches (join_id : string) (cb : callback)
  (self : CrestronServer) :
  let s := final (register_callback join_id cb self) in
  (forall v, exists n,
     notified (final (_notify_callbacks join_id v s)) = notified s ++ [n] /\
     n_join_id n = join_id /\ n_value n = v /\ cb ∈ n_recipients n) /\
  (forall other, other <> join_id ->
     recipients_of other s = recipients_of other self) /\
  final (register_callback join_id cb s) = s.
Proof.
  cbn zeta. split; [| split].
  - intros v. eexists. split; [apply notify_recipients |].
    cbn [n_join_id n_value n_recipients].
    auto using recipients_register_same.
  - intros other Hne. apply recipients_register_other, Hne.
  - unfold register_callback, assign. cbn [final].
    destruct (String.eqb join_id "system") eqn:Hsys; cbn; rewrite ?Hsys; cbn.
    + unfold set_global_callbacks. cbn. f_equal. set_solver.
    + unfold set_join_callbacks. cbn.
      rewrite lookup_insert_eq, insert_insert_eq. cbn. do 2 f_equal.
      set_solver.
Qed.

Lemma register_callback_reaches_witness :
  recipients_of "d2" (final (register_callback "d1" 3%nat __init__))
  = recipients_of "d2" __init__.
Proof.
  destruct (register_callback_reaches "d1" 3%nat __init__)
    as (_ & Hother & _).
  apply Hother. discriminate.
Defined.

Lemma recipients_unregister_other join_id cb other self :
  other <> join_id ->
  recipients_of other (final (unregister_callback join_id cb self))
  = recipients_of other self.
Proof.
  intros Hne. unfold recipients_of, unregister_callback, assign.
  cbn [final].
  destruct (String.eqb join_id "system") eqn:Hsys.
  - apply String.eqb_eq in Hsys. subst join_id.
    apply String.eqb_neq in Hne. cbn. rewrite Hne. reflexivity.
  - destruct (_join_callbacks self !! join_id) as [cbs |]; [| reflexivity].
    destruct (bool_decide _); cbn.
    + rewrite lookup_delete_ne by congruence. reflexivity.
    + rewrite lookup_insert_ne by congruence. reflexivity.
Qed.

Lemma recipients_unregister_same join_id cb self :
  _join_callbacks self !! "system" = None ->
  forall c, c ∈ recipients_of join_id
                  (final (unregister_callback join_id cb self))
            <-> c ∈ recipients_of join_id self /\ c <> cb.
Proof.
  intros Hinv c. unfold recipients_of, unregister_callback, assign.
  cbn [final].
  destruct (String.eqb join_id "system") eqn:Hsys.
  - apply String.eqb_eq in Hsys. subst join_id. cbn. rewrite Hinv. cbn.
    rewrite !elem_of_elements. set_solver.
  - destruct (_join_callbacks self !! join_id) as [cbs |] eqn:Hcbs.
    + destruct (bool_decide (cbs ∖ {[cb]} = ∅)) eqn:Hempty; cbn.
      * apply bool_decide_eq_true in Hempty.
        rewrite lookup_delete_eq, ?Hcbs, ?app_nil_r; cbn.
        rewrite elem_of_elements. set_solver.
      * rewrite lookup_insert_eq, ?Hcbs, ?app_nil_r; cbn.
        rewrite !elem_of_elements. set_solver.
    + rewrite ?Hcbs. cbn. set_solver.
Qed.

(** X2.  [unregister_callback] (and the closure returned by
    [register_callback]) removes exactly the callback given, for exactly
    the join id given: afterwards notifications for that id call the
    callbacks registered before except [cb], and those for other ids are
    unaffected; removing a callback or a join id that is not registered
    is accepted and removes nothing.  (No join callbacks are ever stored
    under the key ["system"]: that is kept by both methods.) *)
Theorem unregister_callback_removes (join_id : string) (cb : callback)
  (self : CrestronServer) :
  _join_callbacks self !! "system" = None ->
  let s := final (unregister_callback join_id cb self) in
  (forall c, c ∈ recipients_of join_id s
             <-> c ∈ recipients_of join_id self /\ c <> cb) /\
  (forall other, other <> join_id ->
     recipients_of other s = recipients_of other self) /\
  (forall c, c ∈ recipients_of join_id
                   (final (unregister_callback join_id cb
                             (final (register_callback join_id cb self))))
             <-> c ∈ recipients_of join_id self /\ c <> cb) /\
  _join_callbacks s !! "system" = None /\
  _join_callbacks (final (register_callback join_id cb self)) !! "system"
  = None.
Proof.
  intros Hinv. cbn zeta.
  assert (Hreg : _join_callbacks (final (register_callback join_id cb self))
                   !! "system" = None).
  { unfold register_callback, assign. cbn [final].
    destruct (String.eqb join_id "system") eqn:Hsys; cbn; [exact Hinv |].
    apply String.eqb_neq in Hsys. rewrite lookup_insert_ne by congruence.
    exact Hinv. }
  split; [| split; [| split; [| split]]].
  - apply recipients_unregister_same, Hinv.
  - intros other Hne. apply recipients_unregister_other, Hne.
  - intros c. rewrite (recipients_unregister_same join_id cb _ Hreg).
    split.
    + intros [Hc Hne]. split; [| exact Hne].
      unfold recipients_of, register_callback, assign in Hc.
      cbn [final] in Hc. unfold recipients_of.
      destruct (String.eqb join_id "system") eqn:Hsys; cbn in Hc.
      * rewrite ?Hsys in Hc. apply elem_of_app in Hc as [Hc | Hc];
          apply elem_of_app; [left; exact Hc | right].
        rewrite elem_of_elements in *. set_solver.
      * rewrite lookup_insert_eq, app_nil_r in Hc. rewrite app_nil_r.
        rewrite elem_of_elements in Hc.
        destruct (_join_callbacks self !! join_id) as [cbs |];
          cbn in Hc; [rewrite elem_of_elements |]; set_solver.
    + intros [Hc Hne]. split; [| exact Hne].
      destruct (decide (c = cb)) as [-> | _]; [contradiction |].
      unfold recipients_of, register_callback, assign. cbn [final].
      unfold recipients_of in Hc.
      destruct (String.eqb join_id "system") eqn:Hsys; cbn.
      * rewrite ?Hsys. apply elem_of_app in Hc as [Hc | Hc];
          apply elem_of_app; [left; exact Hc | right].
        rewrite elem_of_elements in *. set_solver.
      * rewrite lookup_insert_eq, app_nil_r. rewrite app_nil_r in Hc.
        rewrite elem_of_elements.
        destruct (_join_callbacks self !! join_id) as [cbs |];
          cbn; [rewrite elem_of_elements in Hc |]; set_solver.
  - unfold unregister_callback, assign. cbn [final].
    destruct (String.eqb join_id "system") eqn:Hsys; cbn; [exact Hinv |].
    apply String.eqb_neq in Hsys.
    destruct (_join_callbacks self !! join_id) as [cbs |]; [| exact Hinv].
    destruct (bool_decide _); cbn.
    + rewrite lookup_delete_ne by congruence. exact Hinv.
    + rewrite lookup_insert_ne by congruence. exact Hinv.
  - exact Hreg.
Qed.

Lemma unregister_callback_removes_witness :
  _join_callbacks __init__ !! "system" = None /\
  forall c, c ∈ recipients_of "d5"
                  (final (unregister_callback "d5" 3%nat
                            (final (register_callback "d5" 3%nat __init__))))
            <-> c ∈ recipients_of "d5" __init__ /\ c <> 3%nat.
Proof.
  split; [reflexivity |].
  apply (unregister_callback_removes "d5" 3%nat __init__ eq_refl).
Defined.

(** ** More on the rate limiter *)

Lemma join_id_of_inj c c' :
  join_id_of c = join_id_of c' ->
  kind_of c = kind_of c' /\ join_of c = join_of c'.
Proof.
  destruct c, c'; cbn [join_id_of kind_of join_of]; intros Hid;
    try (exfalso; revert Hid; unfold String.append; discriminate);
    (split; [reflexivity |]);
    apply (inj (String.append _)) in Hid;
    apply pretty_Z_inj in Hid; exact Hid.
Qed.

Lemma update_times_other join_id other l self :
  other <> join_id ->
  update_times other
    (set_join_update_times (<[join_id := l]> (_join_update_times self)) self)
  = update_times other self.
Proof.
  intros Hne. unfold update_times. cbn.
  rewrite lookup_insert_ne by congruence. reflexivity.
Qed.

Lemma check_rate_limit_other join_id other now self :
  other <> join_id ->
  update_times other (final (_check_rate_limit join_id now self))
  = update_times other self.
Proof.
  intros Hne. rewrite check_rate_limit_spec. cbn zeta.
  destruct (Nat.leb MAX_JOIN_UPDATES _); cbn [final];
    apply update_times_other, Hne.
Qed.

Lemma limited_other c other now self :
  other <> join_id_of c ->
  update_times other
    (final (bind (_check_rate_limit (join_id_of c) now)
              (fun ok : bool =>
                 if negb ok
                 then raise (HomeAssistantError
                               ("Join " +:+ join_id_of c
                                +:+ " update rate exceeded"))
                 else queue_put (command_of c)) self))
  = update_times other self.
Proof.
  intros Hne. unfold bind. rewrite check_rate_limit_spec. cbn zeta.
  destruct (Nat.leb MAX_JOIN_UPDATES _); cbn [negb].
  - apply update_times_other, Hne.
  - unfold queue_put. destruct (Nat.leb MAX_QUEUE_SIZE _); cbn [final];
      apply (update_times_other _ _ _ self), Hne.
Qed.

Lemma call_try_other c other now self :
  other <> join_id_of c ->
  update_times other (final (call_try c now self)) = update_times other self.
Proof.
  intros Hne.
  destruct c as [join value | join value | join str];
    unfold call_try, set_digital_try, set_analog_try, set_serial_try;
    unfold bind at 1.
  - destruct (validate_cases join "d" self) as [-> | [msg ->]];
      [| reflexivity].
    unfold bind at 1, get.
    destruct (negb (available self)); [reflexivity |].
    destruct (negb (bool_decide _)); [reflexivity |].
    apply (limited_other (SetDigital join value)), Hne.
  - destruct (validate_cases join "a" self) as [-> | [msg ->]];
      [| reflexivity].
    unfold bind at 1, get.
    destruct (negb (available self)); [reflexivity |].
    destruct (negb (bool_decide _)); [reflexivity |].
    apply (limited_other (SetAnalog join value)), Hne.
  - unfold get.
    destruct (negb (available self)); [reflexivity |].
    destruct (negb (bool_decide _)); [reflexivity |].
    destruct (Nat.ltb 252 _); [reflexivity |].
    apply (limited_other (SetSerial join str)), Hne.
Qed.

Lemma final_call c now self :
  final (call c now self) = final (call_try c now self).
Proof.
  rewrite call_wraps. destruct (call_try c now self); reflexivity.
Qed.

(** X3.  The rate limiter keeps one history per kind of join and join
    number: a call of [set_digital], [set_analog] or [set_serial], whatever
    its outcome, leaves the recorded send times of every setter call of
    another kind or another join number as they were, so no join can use
    up the allowance of another. *)
Theorem rate_limit_per_join (c c' : setter) (now : Z)
  (self : CrestronServer) :
  kind_of c <> kind_of c' \/ join_of c <> join_of c' ->
  update_times (join_id_of c') (final (call c now self))
  = update_times (join_id_of c') self.
Proof.
  intros Hdiff. rewrite final_call. apply call_try_other.
  intros Hid. apply join_id_of_inj in Hid as [Hk Hj].
  destruct Hdiff; congruence.
Qed.

Lemma rate_limit_per_join_witness :
  update_times "a2" (final (call (SetAnalog 1 5) 1700000001000000 busy))
  = update_times "a2" busy /\
  update_times "d1" (final (call (SetAnalog 1 5) 1700000001000000 busy))
  = update_times "d1" busy.
Proof.
  split.
  - apply (rate_limit_per_join (SetAnalog 1 5) (SetAnalog 2 0)).
    right. cbn. lia.
  - apply (rate_limit_per_join (SetAnalog 1 5) (SetDigital 1 true)).
    left. cbn. discriminate.
Defined.

Lemma expire_keeps_sorted now updates :
  StronglySorted Z.le updates -> StronglySorted Z.le (expire now updates).
Proof.
  induction 1 as [| t rest Hrest IH Hle]; [constructor |].
  cbn [expire]. destruct (JOIN_UPDATE_WINDOW <? now - t); [exact IH |].
  constructor; assumption.
Qed.

Lemma expire_elem now updates t : t ∈ expire now updates -> t ∈ updates.
Proof.
  induction updates as [| t' rest IH]; [intros H; exact H |].
  cbn [expire]. destruct (JOIN_UPDATE_WINDOW <? now - t'); [| intros H; exact H].
  intros Hin. apply list_elem_of_further, IH, Hin.
Qed.

Lemma expire_length now updates :
  (length (expire now updates) <= length updates)%nat.
Proof.
  induction updates as [| t rest IH]; [reflexivity |].
  cbn [expire]. destruct (JOIN_UPDATE_WINDOW <? now - t); cbn; lia.
Qed.

(** X4.  The recorded send times of a join stay in order, inside the
    window and at most [MAX_JOIN_UPDATES] long: if the history of
    [join_id] is in time order, holds no time later than the clock and
    no more than 1000 entries (as in a new server, where it is empty),
    then after [_check_rate_limit(join_id)] it is again in time order,
    every entry lies within [JOIN_UPDATE_WINDOW] before the clock, and it
    holds at most 1000 entries. *)
Theorem rate_history_invariant (join_id : string) (now : Z)
  (self : CrestronServer) :
  StronglySorted Z.le (update_times join_id self) ->
  (forall t, t ∈ update_times join_id self -> t <= now) ->
  (length (update_times join_id self) <= MAX_JOIN_UPDATES)%nat ->
  let updates :=
    update_times join_id (final (_check_rate_limit join_id now self)) in
  StronglySorted Z.le updates /\
  (forall t, t ∈ updates -> now - JOIN_UPDATE_WINDOW <= t <= now) /\
  (length updates <= MAX_JOIN_UPDATES)%nat.
Proof.
  intros Hsorted Hpast Hlen. cbn zeta.
  assert (Hwin : forall t, t ∈ expire now (update_times join_id self) ->
                           now - JOIN_UPDATE_WINDOW <= t <= now).
  { intros t Hin. split; [| apply Hpast, (expire_elem now), Hin].
    rewrite expire_sorted in Hin by exact Hsorted.
    apply list_elem_of_filter in Hin as [Hin _]. lia. }
  pose proof (expire_length now (update_times join_id self)) as Hshort.
  rewrite check_rate_limit_spec. cbn zeta.
  destruct (Nat.leb MAX_JOIN_UPDATES _) eqn:Hfull; cbn [final];
    rewrite update_times_set.
  - split; [apply expire_keeps_sorted, Hsorted |].
    split; [exact Hwin | lia].
  - apply Nat.leb_gt in Hfull. split; [| split].
    + apply StronglySorted_app_2.
      * intros t1 t2 H1 H2. apply list_elem_of_singleton in H2 as ->.
        apply Hwin, H1.
      * apply expire_keeps_sorted, Hsorted.
      * repeat constructor.
    + intros t Hin. apply elem_of_app in Hin as [Hin | Hin].
      * apply Hwin, Hin.
      * apply list_elem_of_singleton in Hin as ->.
        unfold JOIN_UPDATE_WINDOW. lia.
    + rewrite length_app. cbn. lia.
Qed.

Lemma rate_history_invariant_witness :
  let updates :=
    update_times "a1"
      (final (_check_rate_limit "a1" 1700000000000000 __init__)) in
  StronglySorted Z.le updates /\
  (forall t, t ∈ updates ->
             1700000000000000 - JOIN_UPDATE_WINDOW <= t <= 1700000000000000) /\
  (length updates <= MAX_JOIN_UPDATES)%nat.
Proof.
  apply (rate_history_invariant "a1" 1700000000000000 __init__).
  - constructor.
  - intros t Hin. inversion Hin.
  - apply Nat.le_0_l.
Defined.

(** ** Stopping the server *)



(** ** The command processor *)

Lemma process_suspends now self :
  available self = false -> _command_event self = false ->
  _process_command_queue now self = Suspend self.
Proof.
  intros Hoff Hgate. unfold _process_command_queue, suspend. run.
  rewrite Hoff, Hgate. reflexivity.
Qed.

Lemma process_skips now self c queue :
  available self = false -> _command_event self = true ->
  _command_queue self = c :: queue ->
  _process_command_queue now self = Return tt (set_command_queue queue self).
Proof.
  intros Hoff Hgate Hq. unfold _process_command_queue, suspend. run.
  rewrite Hoff, Hgate, Hq. reflexivity.
Qed.

Lemma process_runs now self c queue :
  available self = true -> _command_queue self = c :: queue ->
  _process_command_queue now self
  = match send_command c now (set_command_queue queue self) with
    | Raise _ s =>
        if _available s
        then _notify_callbacks "system" (PyStr (lit "disconnected"))
               (set_command_event false (set_available false s))
        else Return tt s
    | r => r
    end.
Proof.
  intros Hon Hq. unfold _process_command_queue, suspend. run.
  rewrite Hon, Hq. cbn [negb andb].
  destruct (send_command c now _) as [[] s | e s | s]; try reflexivity.
  destruct (_available s); reflexivity.
Qed.

Lemma let_pair {A B C} (p : A * B) (f : A -> B -> C) :
  (let '(a, b) := p in f a b) = f (fst p) (snd p).
Proof. destruct p; reflexivity. Qed.

Lemma available_inv self :
  available self = true ->
  _available self = true /\
  exists w, _writer self = Some w /\ is_closing w = false.
Proof.
  unfold available. intros Hon. apply andb_prop in Hon as [Hflag Hw].
  split; [exact Hflag |].
  destruct (_writer self) as [w |]; [| discriminate].
  exists w. split; [reflexivity |]. destruct (is_closing w);
    [discriminate | reflexivity].
Qed.

(** X6.  A value given to [set_analog] is the value [get_analog] returns
    once the command processor has run the queued command: with the
    server available, the queue empty, the rate limit not reached, a
    writer whose [drain] succeeds and a join in 1..32768, [set_analog]
    returns, the next pass of [_process_command_queue] returns and has
    written exactly the four bytes of the frame and emptied the queue,
    and [get_analog] then returns the value. *)
Theorem queued_analog_read_back (join value now now' : Z)
  (self : CrestronServer) :
  available self = true -> _command_queue self = [] ->
  (forall w, _writer self = Some w -> drain_fails w = false) ->
  (length (expire now (update_times ("a" +:+ pretty join) self))
   < MAX_JOIN_UPDATES)%nat ->
  1 <= join <= 32768 ->
  exists s1 s2 s3 frame,
    set_analog join value now self = Return tt s1 /\
    _process_command_queue now' s1 = Return tt s2 /\
    Codec.analog_frame join value = Some frame /\
    wire s2 = wire self ++ frame /\ length frame = 4%nat /\
    _command_queue s2 = [] /\ available s2 = true /\
    get_analog join s2 = Return (PyInt value) s3.
Proof.
  intros Hon Hq Hdrain Hrate Hj.
  destruct (available_inv self Hon) as (Hflag & w & Hw & Hopen).
  specialize (Hdrain w Hw).
  rewrite set_analog_available
    by (unfold MAX_ANALOG_JOIN; try lia; exact Hon).
  cbn zeta.
  replace (Nat.leb MAX_JOIN_UPDATES _) with false
    by (symmetry; apply Nat.leb_gt; exact Hrate).
  match goal with
  | |- context [queue_put ?c ?s] =>
      set (s0 := s);
      assert (Hput : queue_put c s0 = Return tt (set_command_queue [c] s0))
        by (unfold queue_put; change (_command_queue s0)
              with (_command_queue self); rewrite Hq; reflexivity);
      rewrite Hput
  end.
  exists (set_command_queue [send_analog join value] s0). eexists.
  rewrite (process_runs now' _ (send_analog join value) [])
    by first [exact Hon | reflexivity].
  cbn [send_command]. rewrite analog_frame_packs by exact Hj.
  unfold bind. erewrite (self_write_drain_ok w) by (cbn; assumption).
  unfold assign. rewrite let_pair.
  match goal with
  | |- context [dd_get JoinState.init join ?t] =>
      set (js := fst (dd_get JoinState.init join t));
      set (tbl := snd (dd_get JoinState.init join t))
  end.
  eexists. eexists.
  split; [reflexivity |]. split; [reflexivity |]. split; [reflexivity |].
  split; [reflexivity |]. split; [reflexivity |]. split; [reflexivity |].
  split; [exact Hon |].
  unfold get_analog, get_analog_try. run.
  rewrite validate_analog_ok by (unfold MAX_ANALOG_JOIN; lia).
  match goal with
  | |- context [negb (available ?s)] =>
      replace (available s) with true by (symmetry; exact Hon)
  end.
  cbn [negb]. unfold dd_get at 1. cbn [_analog set_analog_tbl].
  rewrite lookup_insert_eq. reflexivity.
Qed.

Lemma queued_analog_read_back_witness :
  exists s1 s2 s3 frame,
    set_analog 1 1000 1700000001000000 synced = Return tt s1 /\
    _process_command_queue 1700000001000500 s1 = Return tt s2 /\
    Codec.analog_frame 1 1000 = Some frame /\
    wire s2 = wire synced ++ frame /\ length frame = 4%nat /\
    _command_queue s2 = [] /\ available s2 = true /\
    get_analog 1 s2 = Return (PyInt 1000) s3.
Proof.
  apply (queued_analog_read_back 1 1000 1700000001000000 1700000001000500
           synced).
  - reflexivity.
  - reflexivity.
  - intros w [= <-]. reflexivity.
  - apply Nat.ltb_lt. vm_compute. reflexivity.
  - lia.
Defined.

(** ** Commands that cannot be sent *)

Lemma lor_byte_inv a b : 0 <= a -> 0 <= b -> Z.lor a b <= 255 -> b <= 255.
Proof.
  intros Ha Hb Hor.
  assert (Hlow : Z.lor a b mod 2 ^ 8 = Z.lor a b).
  { apply Z.mod_small. split; [apply Z.lor_nonneg; auto |].
    change (2 ^ 8) with 256. lia. }
  assert (Hmod : b = b mod 2 ^ 8).
  { apply Z.bits_inj'. intros i Hi.
    destruct (Z.lt_ge_cases i 8) as [Hi8 | Hi8].
    - rewrite Z.mod_pow2_bits_low by lia. reflexivity.
    - rewrite Z.mod_pow2_bits_high by lia.
      assert (Hbit : Z.testbit (Z.lor a b) i = false).
      { rewrite <- Hlow. apply Z.mod_pow2_bits_high. lia. }
      rewrite Z.lor_spec in Hbit. apply orb_false_elim in Hbit as [_ Hbit].
      exact Hbit. }
  rewrite Hmod. change (2 ^ 8) with 256. divlia.
Qed.

(** The first byte of a frame, [marker | join - 1 >> 7], is a byte only
    for a join in 1..32768. *)
Lemma first_byte_overflows marker join :
  0 <= marker -> ~ 1 <= join <= 32768 ->
  Codec.is_byte (Z.lor marker (Z.shiftr (join - 1) 7)) = false.
Proof.
  intros Hm Hj. unfold Codec.is_byte.
  destruct (Z.le_gt_cases 1 join) as [Hpos | Hneg].
  - apply andb_false_intro2, Z.leb_gt.
    assert (Hhigh : 256 <= Z.shiftr (join - 1) 7).
    { rewrite Z.shiftr_div_pow2 by lia. change (2 ^ 7) with 128. divlia. }
    destruct (Z.le_gt_cases (Z.lor marker (Z.shiftr (join - 1) 7)) 255)
      as [Hle | Hgt]; [| lia].
    apply lor_byte_inv in Hle; lia.
  - apply andb_false_intro1, Z.leb_gt, Z.lor_neg. right.
    apply Z.shiftr_neg. lia.
Qed.

Lemma send_command_unpackable c now self :
  ~ 1 <= join_of c <= 32768 ->
  send_command (command_of c) now self
  = Raise (LibraryError "struct.error") self.
Proof.
  intros Hj.
  destruct c as [join value | join value | join str];
    cbn [command_of send_command join_of] in *.
  - unfold Codec.digital_frame, Codec.pack_B, Codec.digital_b0.
    cbn [forallb]. rewrite first_byte_overflows; [reflexivity | | exact Hj].
    apply Z.lor_nonneg. split; [lia |]. apply Z.land_nonneg. right. lia.
  - unfold Codec.analog_frame, Codec.pack_B, Codec.analog_b0.
    cbn [forallb]. rewrite first_byte_overflows; [reflexivity | | exact Hj].
    apply Z.lor_nonneg. split; [lia |]. apply Z.land_nonneg. right. lia.
  - unfold Codec.serial_header, Codec.pack_B.
    cbn [forallb]. rewrite first_byte_overflows; [reflexivity | lia | exact Hj].
Qed.

(** X7.  The setters accept joins that no frame can carry, and the
    connection pays for it: for a setter call that passes the checks of
    the setter (a digital or analog join in 1..65535, a serial string of
    at most 252 characters) with a join outside 1..32768, on an available
    server with an empty queue and the rate limit not reached, the setter
    returns, and the next pass of [_process_command_queue] finds that
    [struct.pack] raises: it writes nothing, marks the server
    unavailable, closes the command gate and sends ["disconnected"] on
    the ["system"] channel. *)
Theorem unpackable_join_disconnects (c : setter) (now now' : Z)
  (self : CrestronServer) :
  accepted c -> ~ 1 <= join_of c <= 32768 ->
  available self = true -> _command_queue self = [] ->
  (length (expire now (update_times (join_id_of c) self))
   < MAX_JOIN_UPDATES)%nat ->
  exists s1 s2,
    call c now self = Return tt s1 /\
    _process_command_queue now' s1 = Return tt s2 /\
    available s2 = false /\ _available s2 = false /\
    _command_event s2 = false /\ _command_queue s2 = [] /\
    wire s2 = wire self /\ same_tables s2 self /\
    notified s2 = notified self ++ [system_event "disconnected" self].
Proof.
  intros Hok Hj Hon Hq Hrate.
  destruct (available_inv self Hon) as (Hflag & w & Hw & Hopen).
  rewrite call_available by assumption. cbn zeta.
  replace (Nat.leb MAX_JOIN_UPDATES _) with false
    by (symmetry; apply Nat.leb_gt; exact Hrate).
  match goal with
  | |- context [queue_put ?k ?s] =>
      set (s0 := s);
      assert (Hput : queue_put k s0 = Return tt (set_command_queue [k] s0))
        by (unfold queue_put; change (_command_queue s0)
              with (_command_queue self); rewrite Hq; reflexivity);
      rewrite Hput
  end.
  exists (set_command_queue [command_of c] s0). eexists.
  rewrite (process_runs now' _ (command_of c) [])
    by first [exact Hon | reflexivity].
  rewrite send_command_unpackable by exact Hj.
  change (_available (set_command_queue [] _)) with (_available self).
  rewrite Hflag.
  split; [reflexivity |]. split; [reflexivity |]. split; [reflexivity |].
  split; [reflexivity |]. split; [reflexivity |]. split; [reflexivity |].
  split; [reflexivity |]. split; [repeat split | reflexivity].
Qed.

Lemma unpackable_join_disconnects_witness :
  exists s1 s2,
    call (SetAnalog 40000 5) 1700000001000000 synced = Return tt s1 /\
    _process_command_queue 1700000001000500 s1 = Return tt s2 /\
    available s2 = false /\ _available s2 = false /\
    _command_event s2 = false /\ _command_queue s2 = [] /\
    wire s2 = wire synced /\ same_tables s2 synced /\
    notified s2 = notified synced ++ [system_event "disconnected" synced].
Proof.
  apply (unpackable_join_disconnects (SetAnalog 40000 5)).
  - unfold accepted, MAX_ANALOG_JOIN. lia.
  - cbn. lia.
  - reflexivity.
  - reflexivity.
  - apply Nat.ltb_lt. vm_compute. reflexivity.
Defined.

(** X8.  The command processor sends nothing while the server is
    unavailable.  With the command gate closed it waits, leaving the
    queue as it is; with the gate open (the flag [_available] still set,
    the writer closing) it takes the oldest command off the queue and
    discards it: nothing is written, stored or notified, and the command
    is not queued again. *)
Theorem unavailable_commands_dropped (now : Z) (self : CrestronServer) :
  available self = false ->
  (_command_event self = false ->
   _process_command_queue now self = Suspend self) /\
  (_command_event self = true ->
   forall c queue, _command_queue self = c :: queue ->
     exists s,
       _process_command_queue now self = Return tt s /\
       _command_queue s = queue /\ wire s = wire self /\
       same_tables s self /\ notified s = notified self /\
       _available s = _available self).
Proof.
  intros Hoff. split.
  - apply process_suspends, Hoff.
  - intros Hgate c queue Hq. eexists.
    split; [apply (process_skips now self c queue); assumption |].
    repeat split.
Qed.

Lemma unavailable_commands_dropped_witness :
  exists s,
    _process_command_queue 1700000001000500 closing = Return tt s /\
    _command_queue s = [] /\ wire s = wire closing /\
    same_tables s closing /\ notified s = notified closing /\
    _available s = _available closing.
Proof.
  destruct (unavailable_commands_dropped 1700000001000500 closing eq_refl)
    as [_ Hdrop].
  exact (Hdrop eq_refl (send_analog 1 5) [] eq_refl).
Defined.

(** ** The kinds of frame *)

Lemma land_F8 x : Z.land x 0xF8 = (x / 8) mod 32 * 8.
Proof.
  change 0xF8 with (Z.shiftl (Z.ones 5) 3).
  rewrite BitFacts.field by lia. reflexivity.
Qed.

Lemma is_digital_range b0 b1 :
  0 <= b0 <= 255 -> 0 <= b1 <= 255 ->
  Codec.is_digital b0 b1 = true <-> 0x80 <= b0 <= 0xBF /\ b1 <= 0x7F.
Proof.
  intros H0 H1. unfold Codec.is_digital.
  rewrite BitFacts.land_C0, BitFacts.land_80, andb_true_iff, !Z.eqb_eq.
  split; intros [Ha Hb]; split; divlia.
Qed.

Lemma is_analog_range b0 b1 :
  0 <= b0 <= 255 -> 0 <= b1 <= 255 ->
  Codec.is_analog b0 b1 = true
  <-> (0xC0 <= b0 /\ b0 mod 16 < 8) /\ b1 <= 0x7F.
Proof.
  intros H0 H1. unfold Codec.is_analog.
  rewrite BitFacts.land_C8, BitFacts.land_80, andb_true_iff, !Z.eqb_eq.
  split; [intros [Ha Hb] | intros [[Ha Ha'] Hb]]; repeat split; divlia.
Qed.

Lemma is_serial_range b0 b1 :
  0 <= b0 <= 255 -> 0 <= b1 <= 255 ->
  Codec.is_serial b0 b1 = true <-> 0xC8 <= b0 <= 0xCF /\ b1 <= 0x7F.
Proof.
  intros H0 H1. unfold Codec.is_serial.
  rewrite land_F8, BitFacts.land_80, andb_true_iff, !Z.eqb_eq.
  split; intros [Ha Hb]; split; divlia.
Qed.

(** X9.  What the tests of the read loop accept, in terms of the two
    bytes: a digital frame is a first byte 0x80..0xBF, an analog frame a
    first byte from 0xC0 with bit 3 clear, a serial frame a first byte
    0xC8..0xCF, each with a second byte below 0x80.  So no pair of bytes
    passes two of the tests (the order of the [if] / [elif] chain does not
    matter), and the sync byte 0xFB begins no frame. *)
Theorem frame_kinds_by_range (b0 b1 : Z) :
  0 <= b0 <= 255 -> 0 <= b1 <= 255 ->
  (Codec.is_digital b0 b1 = true <-> 0x80 <= b0 <= 0xBF /\ b1 <= 0x7F) /\
  (Codec.is_analog b0 b1 = true
   <-> (0xC0 <= b0 /\ b0 mod 16 < 8) /\ b1 <= 0x7F) /\
  (Codec.is_serial b0 b1 = true <-> 0xC8 <= b0 <= 0xCF /\ b1 <= 0x7F) /\
  Codec.is_digital b0 b1 && Codec.is_analog b0 b1 = false /\
  Codec.is_digital b0 b1 && Codec.is_serial b0 b1 = false /\
  Codec.is_analog b0 b1 && Codec.is_serial b0 b1 = false /\
  (b0 = 0xFB ->
   Codec.is_digital b0 b1 = false /\ Codec.is_analog b0 b1 = false /\
   Codec.is_serial b0 b1 = false).
Proof.
  intros H0 H1.
  pose proof (is_digital_range b0 b1 H0 H1) as Hd.
  pose proof (is_analog_range b0 b1 H0 H1) as Ha.
  pose proof (is_serial_range b0 b1 H0 H1) as Hs.
  split; [exact Hd |]. split; [exact Ha |]. split; [exact Hs |].
  destruct (Codec.is_digital b0 b1), (Codec.is_analog b0 b1),
    (Codec.is_serial b0 b1); cbn [andb];
    repeat split; try reflexivity; try (intros ->); exfalso;
    repeat match goal with
           | H : true = true <-> _ |- _ =>
               apply proj1 in H; specialize (H eq_refl)
           | H : false = true <-> _ |- _ => clear H
           end;
    try divlia; try (cbn in *; lia).
Qed.

Lemma frame_kinds_by_range_witness :
  Codec.is_serial 0xC8 0 = true <-> 0xC8 <= 0xC8 <= 0xCF /\ 0 <= 0x7F.
Proof.
  destruct (frame_kinds_by_range 0xC8 0) as (_ & _ & Hs & _);
    [lia | lia | exact Hs].
Defined.

Lemma iteration_unknown w d0 d1 rest e self :
  rx_byte d0 <> 0xFB ->
  Codec.is_digital (rx_byte d0) (rx_byte d1) = false ->
  Codec.is_analog (rx_byte d0) (rx_byte d1) = false ->
  Codec.is_serial (rx_byte d0) (rx_byte d1) = false ->
  iteration w {| pending := d0 :: d1 :: rest; ending := e |} self
  = Return (true, {| pending := rest; ending := e |}) self.
Proof.
  intros Hb Hd Ha Hs. apply Z.eqb_neq in Hb.
  unfold iteration, on_frame, read. run.
  cbn -[Codec.is_digital Codec.is_analog Codec.is_serial Z.eqb].
  rewrite Hb. destruct e;
    cbn -[Codec.is_digital Codec.is_analog Codec.is_serial Z.eqb];
    rewrite Hd, Ha, Hs; reflexivity.
Qed.

(** X10.  Two bytes that begin no frame are thrown away together.  When
    the first byte of a pass is not 0xFB and the pair is no digital,
    analog or serial frame (the first byte is below 0x80, or it is 0xD8
    or above with bit 3 set, or the second byte is 0x80 or above), the
    pass consumes both bytes and changes nothing, whatever the second
    byte is: a sync byte or the start of a frame in second place is
    lost. *)
Theorem unknown_frame_skipped (w : StreamWriter) (d0 d1 : rx)
  (rest : list rx) (e : stream_end) (self : CrestronServer) :
  0 <= rx_byte d0 <= 255 -> 0 <= rx_byte d1 <= 255 ->
  rx_byte d0 <> 0xFB ->
  rx_byte d0 < 0x80 \/ (0xD8 <= rx_byte d0 /\ 8 <= rx_byte d0 mod 16) \/
  0x80 <= rx_byte d1 ->
  iteration w {| pending := d0 :: d1 :: rest; ending := e |} self
  = Return (true, {| pending := rest; ending := e |}) self.
Proof.
  intros H0 H1 Hb Hrange.
  pose proof (is_digital_range _ _ H0 H1) as Hd.
  pose proof (is_analog_range _ _ H0 H1) as Ha.
  pose proof (is_serial_range _ _ H0 H1) as Hs.
  apply iteration_unknown; [exact Hb | | |].
  - destruct (Codec.is_digital _ _); [| reflexivity].
    exfalso. apply proj1 in Hd. specialize (Hd eq_refl). divlia.
  - destruct (Codec.is_analog _ _); [| reflexivity].
    exfalso. apply proj1 in Ha. specialize (Ha eq_refl). divlia.
  - destruct (Codec.is_serial _ _); [| reflexivity].
    exfalso. apply proj1 in Hs. specialize (Hs eq_refl). divlia.
Qed.

Lemma unknown_frame_skipped_witness :
  iteration open_writer
    {| pending := [{| rx_byte := 0; rx_time := 1700000000000000 |};
                   {| rx_byte := 0xFB; rx_time := 1700000000000000 |}];
       ending := EOF |}
    (final (accept open_writer __init__))
  = Return (true, {| pending := []; ending := EOF |})
      (final (accept open_writer __init__)).
Proof.
  apply (unknown_frame_skipped open_writer
           {| rx_byte := 0; rx_time := 1700000000000000 |}
           {| rx_byte := 0xFB; rx_time := 1700000000000000 |});
    cbn; lia.
Defined.

(** ** Frames received again *)

Lemma on_serial_returns b0 b1 body now self s :
  Utf8.decode body = Some s ->
  on_serial b0 b1 body now self
  = Return tt (final (on_serial b0 b1 body now self)).
Proof.
  intros Hs. unfold on_serial, _notify_callbacks. rewrite Hs. run.
  destruct (dd_get _ _ _). destruct (negb _); reflexivity.
Qed.

Lemma on_analog_again b0 b1 b2 b3 t1 t2 self :
  let s1 := final (on_analog b0 b1 b2 b3 t1 self) in
  final (on_analog b0 b1 b2 b3 t2 s1) = s1.
Proof.
  cbn zeta. unfold on_analog, _notify_callbacks, dd_get. run.
  destruct (_analog self !! Codec.analog_join b0 b1) as [js |] eqn:Hjs;
    cbn beta iota.
  - destruct (py_eq (JoinState.value js) _) eqn:Heq; cbn.
    + rewrite Hjs. cbn. rewrite Heq. reflexivity.
    + rewrite lookup_insert_eq. cbn. rewrite Z.eqb_refl. reflexivity.
  - destruct (py_eq (JoinState.value JoinState.init) _) eqn:Heq; cbn.
    + rewrite lookup_insert_eq. cbn in *. rewrite Heq. reflexivity.
    + rewrite lookup_insert_eq. cbn. rewrite Z.eqb_refl. reflexivity.
Qed.

Lemma on_serial_again b0 b1 body t1 t2 self :
  let s1 := final (on_serial b0 b1 body t1 self) in
  final (on_serial b0 b1 body t2 s1) = s1.
Proof.
  cbn zeta. unfold on_serial, _notify_callbacks, dd_get.
  destruct (Utf8.decode body) as [s |]; [| reflexivity]. run.
  destruct (_serial self !! Codec.serial_join b0 b1) as [js |] eqn:Hjs;
    cbn beta iota.
  - destruct (py_eq (JoinState.value js) _) eqn:Heq; cbn.
    + rewrite Hjs. cbn. rewrite Heq. reflexivity.
    + rewrite lookup_insert_eq. cbn. rewrite bool_decide_true by reflexivity.
      reflexivity.
  - cbn. rewrite lookup_insert_eq. cbn.
    rewrite bool_decide_true by reflexivity. reflexivity.
Qed.

Lemma on_digital_effect b0 b1 now self :
  let join := Codec.digital_join b0 b1 in
  let v := Codec.digital_value b0 =? 1 in
  let s := final (on_digital b0 b1 now self) in
  notified s
  = notified self
    ++ [join_event ("d" +:+ pretty join)
          (PyStr (lit (if v then "1" else "0"))) self] /\
  entry (_digital s) join = touch (PyBool v) now (entry (_digital self) join) /\
  (forall join_id, recipients_of join_id s = recipients_of join_id self).
Proof.
  cbn zeta. split; [| split].
  - unfold on_digital, _notify_callbacks, dd_get. run.
    destruct (_digital self !! Codec.digital_join b0 b1); reflexivity.
  - rewrite on_digital_stores. unfold entry.
    rewrite lookup_insert_eq. reflexivity.
  - intros join_id. unfold on_digital, _notify_callbacks, dd_get. run.
    destruct (_digital self !! Codec.digital_join b0 b1); reflexivity.
Qed.

(** X11.  The same frame received a second time.  An analog or a serial
    frame that repeats the one before changes nothing at all: no value,
    no [last_update], no [update_count], no notification.  A digital
    frame is stored and reported every time it comes in: the second of
    two equal digital frames again notifies the callbacks of its join
    with the same value, stamps the time and counts one more update. *)
Theorem repeated_frames (t1 t2 : Z) (self : CrestronServer) :
  (forall b0 b1 b2 b3,
     let s1 := final (on_analog b0 b1 b2 b3 t1 self) in
     final (on_analog b0 b1 b2 b3 t2 s1) = s1) /\
  (forall b0 b1 body,
     let s1 := final (on_serial b0 b1 body t1 self) in
     final (on_serial b0 b1 body t2 s1) = s1) /\
  (forall b0 b1,
     let join := Codec.digital_join b0 b1 in
     let v := Codec.digital_value b0 =? 1 in
     let s1 := final (on_digital b0 b1 t1 self) in
     let s2 := final (on_digital b0 b1 t2 s1) in
     notified s2
     = notified self
       ++ [join_event ("d" +:+ pretty join)
             (PyStr (lit (if v then "1" else "0"))) self;
           join_event ("d" +:+ pretty join)
             (PyStr (lit (if v then "1" else "0"))) self] /\
     JoinState.value (entry (_digital s2) join) = PyBool v /\
     JoinState.last_update (entry (_digital s2) join) = t2 /\
     JoinState.update_count (entry (_digital s2) join)
     = JoinState.update_count (entry (_digital self) join) + 2).
Proof.
  split; [| split].
  - intros. apply on_analog_again.
  - intros. apply on_serial_again.
  - intros b0 b1. cbn zeta.
    destruct (on_digital_effect b0 b1 t1 self) as (Hn1 & He1 & Hr1).
    destruct (on_digital_effect b0 b1 t2 (final (on_digital b0 b1 t1 self)))
      as (Hn2 & He2 & _).
    cbn zeta in *. rewrite Hn2, Hn1, He2, He1, <- app_assoc.
    unfold join_event. rewrite Hr1. cbn. repeat split. lia.
Qed.

(** ** The first analog frame of a join *)




(** ** Values outside the analog range *)

Lemma analog_frame_mod n v :
  1 <= n <= 1024 ->
  Codec.analog_frame n v = Codec.analog_frame n (v mod 65536).
Proof.
  intros Hn. unfold Codec.analog_frame.
  rewrite !analog_b0_arith by exact Hn.
  unfold Codec.analog_b2, Codec.analog_b3.
  rewrite !BitFacts.land_7F, !Z.shiftr_div_pow2 by lia.
  change (2 ^ 7) with 128.
  replace ((v mod 65536 / 16384) mod 4) with ((v / 16384) mod 4) by divlia.
  replace ((v mod 65536 / 128) mod 128) with ((v / 128) mod 128) by divlia.
  replace ((v mod 65536) mod 128) with (v mod 128) by divlia.
  reflexivity.
Qed.

(** X13.  [set_analog] does not check the value, and the frame has
    sixteen value bits: for a join in 1..1024 and any integer [value],
    the frame packed is the frame of [value mod 65536] and is read back
    by the read loop as that, while the closure, when it has run, has
    stored [value] itself in the analog table.  For a value outside
    0..65535 the control system and [get_analog] disagree. *)
Theorem analog_value_truncated (n value : Z) :
  1 <= n <= 1024 ->
  (exists b0 b1 b2 b3,
     Codec.analog_frame n value = Some [b0; b1; b2; b3] /\
     decode_analog b0 b1 b2 b3 = Some (n, value mod 65536)) /\
  (forall now self s,
     send_command (send_analog n value) now self = Return tt s ->
     JoinState.value (entry (_analog s) n) = PyInt value).
Proof.
  intros Hn. split.
  - rewrite analog_frame_mod by exact Hn.
    apply (analog_frame_decodes n (value mod 65536) Hn). divlia.
  - intros now self s Hrun.
    apply send_analog_returns in Hrun as (Htbl & _).
    unfold entry at 1. rewrite Htbl, lookup_insert_eq. reflexivity.
Qed.

Lemma analog_value_truncated_witness :
  (exists b0 b1 b2 b3,
     Codec.analog_frame 1 70000 = Some [b0; b1; b2; b3] /\
     decode_analog b0 b1 b2 b3 = Some (1, 70000 mod 65536)) /\
  (forall now self s,
     send_command (send_analog 1 70000) now self = Return tt s ->
     JoinState.value (entry (_analog s) 1) = PyInt 70000).
Proof. apply (analog_value_truncated 1 70000). lia. Defined.

(** ** What the connection handler writes *)








(** ** Serial strings on the wire *)

Module Utf8Facts.

Lemma land_3F x : Z.land x 0x3F = x mod 64.
Proof. change 0x3F with (Z.ones 6). rewrite Z.land_ones by lia. reflexivity. Qed.

Lemma land_0F x : Z.land x 0x0F = x mod 16.
Proof. change 0x0F with (Z.ones 4). rewrite Z.land_ones by lia. reflexivity. Qed.

Lemma land_E0 x : Z.land x 0xE0 = (x / 32) mod 8 * 32.
Proof.
  change 0xE0 with (Z.shiftl (Z.ones 3) 5).
  rewrite BitFacts.field by lia. reflexivity.
Qed.

Lemma land_F0 x : Z.land x 0xF0 = (x / 16) mod 16 * 16.
Proof.
  change 0xF0 with (Z.shiftl (Z.ones 4) 4).
  rewrite BitFacts.field by lia. reflexivity.
Qed.

Lemma cont_arith x : Utf8.cont x = 128 + x mod 64.
Proof.
  unfold Utf8.cont. rewrite land_3F. change 0x80 with (2 * 2 ^ 6).
  rewrite BitFacts.lor_low by (change (2 ^ 6) with 64; divlia).
  reflexivity.
Qed.

Lemma is_cont_cont x : Utf8.is_cont (Utf8.cont x) = true.
Proof.
  unfold Utf8.is_cont. rewrite cont_arith, BitFacts.land_C0.
  apply Z.eqb_eq. divlia.
Qed.

Lemma low6_cont x : Utf8.low6 (Utf8.cont x) = x mod 64.
Proof. unfold Utf8.low6. rewrite cont_arith, land_3F. divlia. Qed.

Lemma lead2 c :
  0x80 <= c < 0x800 -> Z.lor 0xC0 (Z.shiftr c 6) = 192 + c / 64.
Proof.
  intros Hc. rewrite Z.shiftr_div_pow2 by lia. change (2 ^ 6) with 64.
  change 0xC0 with (6 * 2 ^ 5).
  rewrite BitFacts.lor_low by (change (2 ^ 5) with 32; divlia).
  reflexivity.
Qed.

Lemma lead3 c :
  0x800 <= c < 0x10000 -> Z.lor 0xE0 (Z.shiftr c 12) = 224 + c / 4096.
Proof.
  intros Hc. rewrite Z.shiftr_div_pow2 by lia. change (2 ^ 12) with 4096.
  change 0xE0 with (14 * 2 ^ 4).
  rewrite BitFacts.lor_low by (change (2 ^ 4) with 16; divlia).
  reflexivity.
Qed.

Lemma lead4 c :
  0x10000 <= c < 0x110000 -> Z.lor 0xF0 (Z.shiftr c 18) = 240 + c / 262144.
Proof.
  intros Hc. rewrite Z.shiftr_div_pow2 by lia. change (2 ^ 18) with 262144.
  change 0xF0 with (30 * 2 ^ 3).
  rewrite BitFacts.lor_low by (change (2 ^ 3) with 8; divlia).
  reflexivity.
Qed.

(** The code point put together from two, three and four bytes. *)
Lemma join2 h r1 :
  0 <= r1 < 64 -> Z.lor (Z.shiftl h 6) r1 = h * 64 + r1.
Proof.
  intros H1. rewrite Z.shiftl_mul_pow2 by lia.
  rewrite BitFacts.lor_low by (change (2 ^ 6) with 64; lia). reflexivity.
Qed.

Lemma join3 h r1 r2 :
  0 <= r1 < 64 -> 0 <= r2 < 64 ->
  Z.lor (Z.lor (Z.shiftl h 12) (Z.shiftl r1 6)) r2
  = h * 4096 + r1 * 64 + r2.
Proof.
  intros H1 H2. rewrite !Z.shiftl_mul_pow2 by lia.
  rewrite BitFacts.lor_low
    by (change (2 ^ 12) with 4096; change (2 ^ 6) with 64; lia).
  replace (h * 2 ^ 12 + r1 * 2 ^ 6) with ((h * 64 + r1) * 2 ^ 6)
    by (change (2 ^ 12) with 4096; change (2 ^ 6) with 64; lia).
  rewrite BitFacts.lor_low by (change (2 ^ 6) with 64; lia).
  change (2 ^ 6) with 64. lia.
Qed.

Lemma join4 h r1 r2 r3 :
  0 <= r1 < 64 -> 0 <= r2 < 64 -> 0 <= r3 < 64 ->
  Z.lor (Z.lor (Z.lor (Z.shiftl h 18) (Z.shiftl r1 12)) (Z.shiftl r2 6)) r3
  = h * 262144 + r1 * 4096 + r2 * 64 + r3.
Proof.
  intros H1 H2 H3. rewrite !Z.shiftl_mul_pow2 by lia.
  rewrite BitFacts.lor_low
    by (change (2 ^ 18) with 262144; change (2 ^ 12) with 4096; lia).
  replace (h * 2 ^ 18 + r1 * 2 ^ 12) with ((h * 64 + r1) * 2 ^ 12)
    by (change (2 ^ 18) with 262144; change (2 ^ 12) with 4096; lia).
  rewrite BitFacts.lor_low
    by (change (2 ^ 12) with 4096; change (2 ^ 6) with 64; lia).
  replace ((h * 64 + r1) * 2 ^ 12 + r2 * 2 ^ 6)
    with (((h * 64 + r1) * 64 + r2) * 2 ^ 6)
    by (change (2 ^ 12) with 4096; change (2 ^ 6) with 64; lia).
  rewrite BitFacts.lor_low by (change (2 ^ 6) with 64; lia).
  change (2 ^ 6) with 64. lia.
Qed.

Lemma mod64_range x : 0 <= x mod 64 < 64.
Proof. divlia. Qed.

(** The bytes of one code point are read back as that code point. *)
Lemma decode_encode_cp c bs rest :
  Utf8.encode_cp c = Some bs ->
  Utf8.decode (bs ++ rest) = option_map (cons c) (Utf8.decode rest).
Proof.
  unfold Utf8.encode_cp.
  destruct (c <? 0) eqn:H0; [discriminate |].
  destruct (c <? 0x80) eqn:H1.
  { intros [= <-]. cbn [app Utf8.decode]. rewrite H1. reflexivity. }
  destruct (c <? 0x800) eqn:H2.
  { intros [= <-]. cbn [app Utf8.decode].
    rewrite lead2 by lia.
    replace (192 + c / 64 <? 0x80) with false by divlia.
    replace (Z.land (192 + c / 64) 0xE0 =? 0xC0) with true
      by (rewrite land_E0; divlia).
    rewrite is_cont_cont, low6_cont, BitFacts.land_1F.
    rewrite join2 by apply mod64_range.
    replace ((192 + c / 64) mod 32 * 64 + c mod 64) with c by divlia.
    replace (0x80 <=? c) with true by lia. reflexivity. }
  destruct (c <? 0x10000) eqn:H3.
  { destruct ((0xD800 <=? c) && (c <=? 0xDFFF)) eqn:Hs; [discriminate |].
    intros [= <-]. cbn [app Utf8.decode].
    rewrite lead3 by lia.
    replace (224 + c / 4096 <? 0x80) with false by divlia.
    replace (Z.land (224 + c / 4096) 0xE0 =? 0xC0) with false
      by (rewrite land_E0; divlia).
    replace (Z.land (224 + c / 4096) 0xF0 =? 0xE0) with true
      by (rewrite land_F0; divlia).
    rewrite !is_cont_cont, !low6_cont, land_0F.
    rewrite join3 by apply mod64_range.
    rewrite Z.shiftr_div_pow2 by lia. change (2 ^ 6) with 64.
    replace ((224 + c / 4096) mod 16 * 4096 + (c / 64) mod 64 * 64 + c mod 64)
      with c by divlia.
    replace (0x800 <=? c) with true by lia.
    rewrite Hs. reflexivity. }
  destruct (c <? 0x110000) eqn:H4; [| discriminate].
  intros [= <-]. cbn [app Utf8.decode].
  rewrite lead4 by lia.
  replace (240 + c / 262144 <? 0x80) with false by divlia.
  replace (Z.land (240 + c / 262144) 0xE0 =? 0xC0) with false
    by (rewrite land_E0; divlia).
  replace (Z.land (240 + c / 262144) 0xF0 =? 0xE0) with false
    by (rewrite land_F0; divlia).
  replace (Z.land (240 + c / 262144) 0xF8 =? 0xF0) with true
    by (rewrite land_F8; divlia).
  rewrite !is_cont_cont, !low6_cont, BitFacts.land_07.
  rewrite join4 by apply mod64_range.
  rewrite !Z.shiftr_div_pow2 by lia.
  change (2 ^ 6) with 64. change (2 ^ 12) with 4096.
  replace ((240 + c / 262144) mod 8 * 262144 + (c / 4096) mod 64 * 4096
           + (c / 64) mod 64 * 64 + c mod 64) with c by divlia.
  replace (0x10000 <=? c) with true by lia.
  rewrite H4. reflexivity.
Qed.

Lemma decode_encode s bs :
  Utf8.encode s = Some bs -> Utf8.decode bs = Some s.
Proof.
  revert bs. induction s as [| c s IH]; intros bs.
  - intros [= <-]. reflexivity.
  - cbn [Utf8.encode].
    destruct (Utf8.encode_cp c) as [cs |] eqn:Hc; [| discriminate].
    destruct (Utf8.encode s) as [rest |]; [| discriminate].
    intros [= <-]. rewrite (decode_encode_cp c cs rest Hc).
    rewrite (IH rest eq_refl). reflexivity.
Qed.

(** No byte of an encoded string is the terminator 0xFF, and a code point
    takes at most four bytes. *)
Lemma encode_cp_bytes c bs :
  Utf8.encode_cp c = Some bs ->
  Forall (fun b => 0 <= b < 0xFF) bs /\ (length bs <= 4)%nat.
Proof.
  unfold Utf8.encode_cp.
  destruct (c <? 0) eqn:H0; [discriminate |].
  destruct (c <? 0x80) eqn:H1.
  { intros [= <-]. split; [| cbn; lia]. repeat constructor; lia. }
  destruct (c <? 0x800) eqn:H2.
  { intros [= <-]. rewrite lead2, cont_arith by lia.
    split; [| cbn; lia]. repeat constructor; divlia. }
  destruct (c <? 0x10000) eqn:H3.
  { destruct (_ && _); [discriminate |].
    intros [= <-]. rewrite lead3, !cont_arith by lia.
    split; [| cbn; lia]. repeat constructor; divlia. }
  destruct (c <? 0x110000) eqn:H4; [| discriminate].
  intros [= <-]. rewrite lead4, !cont_arith by lia.
  split; [| cbn; lia]. repeat constructor; divlia.
Qed.

Lemma encode_bytes s bs :
  Utf8.encode s = Some bs ->
  Forall (fun b => 0 <= b < 0xFF) bs /\ (length bs <= 4 * length s)%nat.
Proof.
  revert bs. induction s as [| c s IH]; intros bs.
  - intros [= <-]. split; [constructor | cbn; lia].
  - cbn [Utf8.encode].
    destruct (Utf8.encode_cp c) as [cs |] eqn:Hc; [| discriminate].
    destruct (Utf8.encode s) as [rest |]; [| discriminate].
    intros [= <-]. destruct (encode_cp_bytes c cs Hc) as [Hcs Hlen].
    destruct (IH rest eq_refl) as [Hrest Hlen'].
    split; [apply Forall_app; auto |].
    rewrite length_app. cbn [length]. lia.
Qed.

Lemma encode_cp_valid c :
  (0 <= c < 0x110000 /\ ~ 0xD800 <= c <= 0xDFFF)
  <-> exists bs, Utf8.encode_cp c = Some bs.
Proof.
  unfold Utf8.encode_cp. split.
  - intros [Hc Hs].
    replace (c <? 0) with false by lia.
    destruct (c <? 0x80); [eauto |].
    destruct (c <? 0x800); [eauto |].
    destruct (c <? 0x10000) eqn:H3.
    + replace ((0xD800 <=? c) && (c <=? 0xDFFF)) with false by lia. eauto.
    + replace (c <? 0x110000) with true by lia. eauto.
  - intros [bs Hbs].
    destruct (c <? 0) eqn:H0; [discriminate |].
    destruct (c <? 0x80) eqn:H1; [lia |].
    destruct (c <? 0x800) eqn:H2; [lia |].
    destruct (c <? 0x10000) eqn:H3.
    + destruct ((0xD800 <=? c) && (c <=? 0xDFFF)) eqn:Hs; [discriminate |].
      lia.
    + destruct (c <? 0x110000) eqn:H4; [lia | discriminate].
Qed.

Lemma encode_valid s :
  Forall (fun c => 0 <= c < 0x110000 /\ ~ 0xD800 <= c <= 0xDFFF) s ->
  exists bs, Utf8.encode s = Some bs.
Proof.
  induction 1 as [| c s Hc _ [rest IH]]; [cbn; eauto |].
  apply encode_cp_valid in Hc as [cs Hcs].
  cbn [Utf8.encode]. rewrite Hcs, IH. eauto.
Qed.

End Utf8Facts.

Lemma until_ff_received t payload ff rest :
  Forall (fun b => 0 <= b < 0xFF) payload -> rx_byte ff = 0xFF ->
  until_ff (received t payload ++ ff :: rest)
  = Some (received t payload, ff, rest).
Proof.
  intros Hpayload Hff.
  induction Hpayload as [| b payload Hb _ IH]; cbn [received map app until_ff].
  - rewrite Hff. reflexivity.
  - cbn [rx_byte]. replace (b =? 0xFF) with false by lia.
    unfold received in IH. rewrite IH. reflexivity.
Qed.

Lemma map_received t bytes : map rx_byte (received t bytes) = bytes.
Proof.
  unfold received. rewrite map_map. cbn. apply map_id.
Qed.

Lemma serial_header_arith n :
  1 <= n <= 1024 ->
  Codec.serial_header n = Some [200 + (n - 1) / 128; (n - 1) mod 128].
Proof.
  intros Hn. unfold Codec.serial_header.
  rewrite BitFacts.land_7F, Z.shiftr_div_pow2 by lia.
  change (2 ^ 7) with 128. change 0xC8 with (25 * 2 ^ 3).
  rewrite BitFacts.lor_low by (change (2 ^ 3) with 8; divlia).
  apply pack_B_bytes. repeat constructor; divlia.
Qed.

Lemma serial_header_tests n :
  1 <= n <= 1024 ->
  let b0 := 200 + (n - 1) / 128 in
  let b1 := (n - 1) mod 128 in
  (b0 =? 0xFB) = false /\ Codec.is_digital b0 b1 = false /\
  Codec.is_analog b0 b1 = false /\ Codec.is_serial b0 b1 = true /\
  Codec.serial_join b0 b1 = n.
Proof.
  intros Hn. cbn zeta.
  unfold Codec.is_digital, Codec.is_analog, Codec.is_serial,
    Codec.serial_join.
  rewrite BitFacts.land_C0, BitFacts.land_C8, land_F8, BitFacts.land_80,
    BitFacts.land_07.
  rewrite BitFacts.join_of_parts by divlia.
  split; [divlia |].
  split; [apply andb_false_intro1; divlia |].
  split; [apply andb_false_intro1; divlia |].
  split; [apply andb_true_intro; split; divlia | divlia].
Qed.

Lemma on_serial_stores b0 b1 body now self s :
  Utf8.decode body = Some s ->
  JoinState.value
    (entry (_serial (final (on_serial b0 b1 body now self)))
           (Codec.serial_join b0 b1))
  = PyStr s.
Proof.
  intros Hs. unfold on_serial, _notify_callbacks, dd_get, entry.
  rewrite Hs. run.
  destruct (_serial self !! Codec.serial_join b0 b1) as [js |] eqn:Hjs;
    cbn beta iota.
  - destruct (py_eq (JoinState.value js) (PyStr s)) eqn:Heq; cbn.
    + rewrite Hjs. cbn. destruct (JoinState.value js); try discriminate.
      cbn in Heq. apply bool_decide_eq_true in Heq. congruence.
    + rewrite lookup_insert_eq. reflexivity.
  - cbn. rewrite lookup_insert_eq. reflexivity.
Qed.

(** The pass of the loop over a serial frame. *)
Lemma iteration_serial w n s payload t rest e self :
  1 <= n <= 1024 -> (length s <= 252)%nat ->
  Utf8.encode s = Some payload ->
  exists header,
    Codec.serial_header n = Some header /\
    iteration w {| pending := received t (header ++ payload ++ [0xFF]) ++ rest;
                   ending := e |} self
    = Return (true, {| pending := rest; ending := e |})
        (final (on_serial (200 + (n - 1) / 128) ((n - 1) mod 128)
                  payload t self)).
Proof.
  intros Hn Hlen Henc. eexists. split; [apply serial_header_arith, Hn |].
  destruct (serial_header_tests n Hn) as (Hb & Hd & Ha & Hs & _).
  destruct (Utf8Facts.encode_bytes s payload Henc) as [Hbytes Hshort].
  unfold iteration, on_frame, read, readuntil. run.
  unfold received. cbn [map app pending ending advance drop take rx_byte].
  replace (match e with EOF | Reset => _ end)
    with (@Return (list rx * StreamReader)
            ([{| rx_byte := 200 + (n - 1) / 128; rx_time := t |}],
             {| pending := {| rx_byte := (n - 1) mod 128; rx_time := t |}
                           :: map (fun b => {| rx_byte := b; rx_time := t |})
                                (payload ++ [0xFF]) ++ rest;
                ending := e |}) self)
    by (destruct e; reflexivity).
  cbn beta iota. cbn [rx_byte]. rewrite Hb.
  cbn [pending ending take drop].
  replace (match e with EOF | Reset => _ end)
    with (@Return (list rx * StreamReader)
            ([{| rx_byte := (n - 1) mod 128; rx_time := t |}],
             {| pending := map (fun b => {| rx_byte := b; rx_time := t |})
                             (payload ++ [0xFF]) ++ rest;
                ending := e |}) self)
    by (destruct e; reflexivity).
  cbn beta iota. cbn [rx_byte]. rewrite Hd, Ha, Hs.
  cbn [pending ending].
  rewrite map_app, <- app_assoc. cbn [map app].
  rewrite drop_0.
  change (map (fun b => {| rx_byte := b; rx_time := t |}) payload)
    with (received t payload).
  rewrite (until_ff_received t payload {| rx_byte := 0xFF; rx_time := t |} rest)
    by (auto; reflexivity).
  unfold received at 1. rewrite length_map.
  replace (65536 <? Z.of_nat (length payload)) with false by lia.
  cbn beta iota. rewrite map_received. cbn [rx_time].
  rewrite (on_serial_returns _ _ _ _ _ s)
    by (apply Utf8Facts.decode_encode, Henc).
  reflexivity.
Qed.

(** X15.  Serial round trip.  For a join in 1..1024 and a string of at
    most 252 characters, each a code point that is no surrogate, the
    closure queued by [set_serial] writes the two header bytes, the UTF-8
    bytes of the string and the terminator 0xFF; and when these bytes
    come in, the pass of the read loop takes them as one serial frame
    (no byte of the encoded string is 0xFF), goes on with the bytes that
    follow, and leaves exactly that string in the serial table at that
    join. *)
Theorem serial_roundtrip_1024 (n : Z) (s : list Z) (t : Z)
  (w : StreamWriter) (rest : list rx) (e : stream_end)
  (self : CrestronServer) :
  1 <= n <= 1024 -> (length s <= 252)%nat ->
  Forall (fun c => 0 <= c < 0x110000 /\ ~ 0xD800 <= c <= 0xDFFF) s ->
  exists frame s',
    serial_frame n s = Some frame /\
    (forall now sender wr,
       _writer sender = Some wr -> drain_fails wr = false ->
       exists sent,
         send_command (send_serial n s) now sender = Return tt sent /\
         wire sent = wire sender ++ frame) /\
    iteration w {| pending := received t frame ++ rest; ending := e |} self
    = Return (true, {| pending := rest; ending := e |}) s' /\
    JoinState.value (entry (_serial s') n) = PyStr s.
Proof.
  intros Hn Hlen Hvalid.
  destruct (Utf8Facts.encode_valid s Hvalid) as [payload Henc].
  destruct (iteration_serial w n s payload t rest e self Hn Hlen Henc)
    as (header & Hheader & Hpass).
  exists (header ++ payload ++ [0xFF]). eexists.
  split; [unfold serial_frame; rewrite Hheader, Henc; reflexivity |].
  split; [| split; [exact Hpass |]].
  - intros now sender wr Hwr Hdrain. cbn [send_command].
    rewrite Hheader, Henc. unfold bind.
    rewrite (self_write_drain_ok wr) by assumption.
    unfold assign. rewrite let_pair. eexists. split; reflexivity.
  - destruct (serial_header_tests n Hn) as (_ & _ & _ & _ & Hjoin).
    cbn zeta in Hjoin.
    pose proof (on_serial_stores (200 + (n - 1) / 128) ((n - 1) mod 128)
                  payload t self s (Utf8Facts.decode_encode s payload Henc))
      as Hstored.
    rewrite Hjoin in Hstored. exact Hstored.
Qed.

Lemma serial_roundtrip_1024_witness :
  exists frame s',
    serial_frame 3 [0x48; 0xE9; 0x20AC; 0x1F600] = Some frame /\
    (forall now sender wr,
       _writer sender = Some wr -> drain_fails wr = false ->
       exists sent,
         send_command (send_serial 3 [0x48; 0xE9; 0x20AC; 0x1F600]) now sender
         = Return tt sent /\
         wire sent = wire sender ++ frame) /\
    iteration open_writer
      {| pending := received 1700000003000000 frame ++ []; ending := EOF |}
      synced
    = Return (true, {| pending := []; ending := EOF |}) s' /\
    JoinState.value (entry (_serial s') 3)
    = PyStr [0x48; 0xE9; 0x20AC; 0x1F600].
Proof.
  apply (serial_roundtrip_1024 3 [0x48; 0xE9; 0x20AC; 0x1F600]).
  - lia.
  - cbn. lia.
  - repeat constructor; lia.
Defined.

(** ** Errors in the read loop *)

Lemma is_serial_only b0 b1 :
  Codec.is_serial b0 b1 = true ->
  (b0 =? 0xFB) = false /\ Codec.is_digital b0 b1 = false /\
  Codec.is_analog b0 b1 = false.
Proof.
  unfold Codec.is_serial, Codec.is_digital, Codec.is_analog.
  rewrite land_F8, BitFacts.land_C0, BitFacts.land_C8.
  intros Hs. apply andb_prop in Hs as [Hs _]. apply Z.eqb_eq in Hs.
  split; [divlia |].
  split; apply andb_false_intro1; divlia.
Qed.

Lemma iteration_bad_serial w d0 d1 tail e self :
  Codec.is_serial (rx_byte d0) (rx_byte d1) = true ->
  until_ff tail = None \/
  (exists body ff rest,
     until_ff tail = Some (body, ff, rest) /\
     Utf8.decode (map rx_byte body) = None) ->
  exists err,
    iteration w {| pending := d0 :: d1 :: tail; ending := e |} self
    = Raise err self.
Proof.
  intros Hs Hbad. destruct (is_serial_only _ _ Hs) as (Hb & Hd & Ha).
  unfold iteration, on_frame, read, readuntil, on_serial. run.
  cbn -[Codec.is_digital Codec.is_analog Codec.is_serial Z.eqb until_ff].
  replace (match e with EOF | Reset => _ end)
    with (@Return (list rx * StreamReader)
            ([d0], {| pending := d1 :: tail; ending := e |}) self)
    by (destruct e; reflexivity).
  cbn beta iota. rewrite Hb.
  cbn -[Codec.is_digital Codec.is_analog Codec.is_serial Z.eqb until_ff].
  replace (match e with EOF | Reset => _ end)
    with (@Return (list rx * StreamReader)
            ([d1], {| pending := tail; ending := e |}) self)
    by (destruct e; reflexivity).
  cbn beta iota. rewrite Hd, Ha, Hs.
  cbn -[until_ff].
  rewrite drop_0.
  destruct Hbad as [-> | (body & ff & rest & -> & Hdec)]; [eauto |].
  destruct (65536 <? Z.of_nat (length body)); [eauto |].
  cbn beta iota. rewrite Hdec. eauto.
Qed.

(** X16.  A serial frame that cannot be read ends the connection.  When
    the two bytes of a serial header are followed by bytes with no
    terminator 0xFF, or by a body that is not valid UTF-8, the read loop
    stops at that frame: nothing is stored, the server is marked
    unavailable, the command gate is closed, ["disconnected"] goes out on
    the ["system"] channel, and the bytes after the frame are not
    read. *)
Theorem bad_serial_frame_disconnects (fuel : nat) (w : StreamWriter)
  (d0 d1 : rx) (tail : list rx) (e : stream_end) (self : CrestronServer) :
  Codec.is_serial (rx_byte d0) (rx_byte d1) = true ->
  until_ff tail = None \/
  (exists body ff rest,
     until_ff tail = Some (body, ff, rest) /\
     Utf8.decode (map rx_byte body) = None) ->
  exists s,
    read_loop (S fuel) w {| pending := d0 :: d1 :: tail; ending := e |} self
    = Some s /\
    _available s = false /\ _command_event s = false /\
    same_tables s self /\
    notified s = notified self ++ [system_event "disconnected" self].
Proof.
  intros Hs Hbad.
  destruct (iteration_bad_serial w d0 d1 tail e self Hs Hbad) as [err Hiter].
  cbn [read_loop]. rewrite Hiter. eexists. split; [reflexivity |].
  destruct (on_error_effect self) as (Ha & Hg & Hn & Ht & _).
  auto.
Qed.

Lemma bad_serial_frame_disconnects_witness :
  exists s,
    read_loop 1 open_writer
      {| pending := received 1700000004000000 [0xC8; 0x00; 0xE9; 0xFF; 0x80; 0x00];
         ending := EOF |} synced
    = Some s /\
    _available s = false /\ _command_event s = false /\
    same_tables s synced /\
    notified s = notified synced ++ [system_event "disconnected" synced].
Proof.
  apply (bad_serial_frame_disconnects 0 open_writer
           {| rx_byte := 0xC8; rx_time := 1700000004000000 |}
           {| rx_byte := 0x00; rx_time := 1700000004000000 |}
           (received 1700000004000000 [0xE9; 0xFF; 0x80; 0x00]) EOF synced).
  - reflexivity.
  - right. eexists. eexists. eexists. split; reflexivity.
Defined.

Lemma on_sync_raising w t self :
  _sync_all_joins_callback self = Some true ->
  SYNC_DEBOUNCE < t - _last_sync_request self ->
  exists err s,
    on_sync w t self = Raise err s /\
    notified s
    = notified self
      ++ (if _initial_sync_received self then []
          else [system_event "connected" self]) /\
    same_tables s self /\
    system_recipients s = system_recipients self.
Proof.
  intros Hhook Hfar. unfold on_sync, write_drain, _notify_callbacks. run.
  replace (SYNC_DEBOUNCE <? t - _last_sync_request self) with true by lia.
  rewrite Hhook.
  destruct (_initial_sync_received self); cbn.
  - eexists. eexists. split; [reflexivity |].
    rewrite app_nil_r. repeat split.
  - destruct (drain_fails w); cbn; eexists; eexists;
      (split; [reflexivity |]); repeat split.
Qed.

(** X17.  A callback given to [register_sync_all_joins_callback] that
    raises takes the connection down at every sync byte it is called
    for.  With such a callback registered, a byte 0xFB that comes in
    outside the debounce window ends the read loop: if it is the first of
    the connection the handshake is done and ["connected"] is sent, and
    in every case the server is then marked unavailable, the command gate
    closed and ["disconnected"] sent; the bytes after it are not
    read. *)
Theorem raising_sync_callback_disconnects (fuel : nat) (w : StreamWriter)
  (d : rx) (rest : list rx) (e : stream_end) (self0 : CrestronServer) :
  let self := final (register_sync_all_joins_callback true self0) in
  rx_byte d = 0xFB ->
  SYNC_DEBOUNCE < rx_time d - _last_sync_request self0 ->
  exists s,
    read_loop (S fuel) w {| pending := d :: rest; ending := e |} self
    = Some s /\
    _available s = false /\ _command_event s = false /\
    same_tables s self0 /\
    notified s
    = notified self0
      ++ (if _initial_sync_received self0 then []
          else [system_event "connected" self0])
      ++ [system_event "disconnected" self0].
Proof.
  cbn zeta. intros Hd Hfar.
  set (self := final (register_sync_all_joins_callback true self0)).
  destruct (on_sync_raising w (rx_time d) self eq_refl Hfar)
    as (err & s1 & Hsync & Hn & Ht & Hr).
  assert (Hiter : iteration w {| pending := d :: rest; ending := e |} self
                  = Raise err s1).
  { destruct (iteration_cases w {| pending := d :: rest; ending := e |} self)
      as [(Hnil & _) | [(Hnil & _) | [(d' & rest' & Hp' & _ & ->)
          | (d' & rest' & Hp' & Hd' & _)]]];
      try discriminate Hnil; cbn [pending] in Hp';
      injection Hp' as <- <-; [| contradiction].
    unfold bind. rewrite Hsync. reflexivity. }
  cbn [read_loop]. rewrite Hiter. eexists. split; [reflexivity |].
  destruct (on_error_effect s1) as (Ha & Hg & Hn' & Ht' & _).
  split; [exact Ha |]. split; [exact Hg |].
  split.
  - destruct Ht as (? & ? & ?), Ht' as (? & ? & ?).
    repeat split; etransitivity; eauto.
  - rewrite Hn', Hn. unfold system_event. rewrite Hr.
    rewrite <- app_assoc. reflexivity.
Qed.

Lemma raising_sync_callback_disconnects_witness :
  exists s,
    read_loop 1 open_writer
      {| pending := received 1700000005000000 [0xFB; 0x80; 0x00];
         ending := EOF |}
      (final (register_sync_all_joins_callback true synced))
    = Some s /\
    _available s = false /\ _command_event s = false /\
    same_tables s synced /\
    notified s
    = notified synced
      ++ (if _initial_sync_received synced then []
          else [system_event "connected" synced])
      ++ [system_event "disconnected" synced].
Proof.
  apply (raising_sync_callback_disconnects 0 open_writer
           {| rx_byte := 0xFB; rx_time := 1700000005000000 |}
           (received 1700000005000000 [0x80; 0x00]) EOF synced).
  - reflexivity.
  - vm_compute. reflexivity.
Defined.

(** ** Reading what was received *)





Lemma entry_lookup {tbl : gmap Z JoinState.t} {n} :
  tbl !! n = None \/ tbl !! n = Some (entry tbl n).
Proof. unfold entry. destruct (tbl !! n); auto. Qed.






(** ** A full queue *)

(** X19.  The rate limiter is charged before the queue is tried.  When a
    setter call passes its checks on an available server whose queue
    already holds [MAX_QUEUE_SIZE] commands and the rate limit is not
    reached, the call neither returns nor raises there (it waits in
    [Queue.put]), the queue is as before, and the send time has already
    been recorded against the join's allowance. *)
Theorem full_queue_blocks_setter (c : setter) (now : Z)
  (self : CrestronServer) :
  accepted c -> available self = true ->
  (MAX_QUEUE_SIZE <= length (_command_queue self))%nat ->
  (length (expire now (update_times (join_id_of c) self))
   < MAX_JOIN_UPDATES)%nat ->
  exists s,
    call c now self = Suspend s /\
    _command_queue s = _command_queue self /\
    update_times (join_id_of c) s
    = expire now (update_times (join_id_of c) self) ++ [now] /\
    wire s = wire self /\ same_tables s self.
Proof.
  intros Hok Hon Hfull Hrate.
  rewrite call_available by assumption. cbn zeta.
  replace (Nat.leb MAX_JOIN_UPDATES _) with false
    by (symmetry; apply Nat.leb_gt; exact Hrate).
  unfold queue_put.
  match goal with
  | |- context [Nat.leb MAX_QUEUE_SIZE (length (_command_queue ?s))] =>
      change (_command_queue s) with (_command_queue self)
  end.
  replace (Nat.leb MAX_QUEUE_SIZE _) with true
    by (symmetry; apply Nat.leb_le; exact Hfull).
  eexists. split; [reflexivity |].
  split; [reflexivity |]. split; [apply update_times_set |].
  split; [reflexivity | repeat split].
Qed.

Lemma full_queue_blocks_setter_witness :
  exists s,
    call (SetAnalog 1 5) 1700000007000000 congested = Suspend s /\
    _command_queue s = _command_queue congested /\
    update_times "a1" s
    = expire 1700000007000000 (update_times "a1" congested)
      ++ [1700000007000000] /\
    wire s = wire congested /\ same_tables s congested.
Proof.
  apply (full_queue_blocks_setter (SetAnalog 1 5) 1700000007000000 congested).
  - unfold accepted, MAX_ANALOG_JOIN. lia.
  - reflexivity.
  - apply Nat.leb_le. vm_compute. reflexivity.
  - apply Nat.ltb_lt. vm_compute. reflexivity.
Defined.

(** ** The queue across connections *)

Lemma on_sync_queue w t self :
  _command_queue (final (on_sync w t self)) = _command_queue self.
Proof.
  unfold on_sync, write_drain, _notify_callbacks. run.
  destruct (_ <? _); [| reflexivity].
  destruct (negb _); cbn.
  - destruct (drain_fails w); cbn; [reflexivity |].
    destruct (_sync_all_joins_callback self) as [[] |]; reflexivity.
  - destruct (_sync_all_joins_callback self) as [[] |]; reflexivity.
Qed.

Lemma iteration_queue w r self :
  _command_queue (final (iteration w r self)) = _command_queue self.
Proof.
  destruct (iteration_cases w r self)
    as [(_ & _ & ->) | [(_ & _ & e & ->) | [(d & rest & _ & _ & ->)
        | (d & rest & _ & _ & ->)]]].
  - reflexivity.
  - reflexivity.
  - pose proof (on_sync_queue w (rx_time d) self) as Hsync. unfold bind.
    destruct (on_sync w (rx_time d) self); exact Hsync.
  - destruct (preserves_on_frame d (advance 1 r) self) as [Hc _].
    apply control_fields in Hc as (_ & _ & Hq & _). exact Hq.
Qed.

Lemma read_loop_queue fuel w r self s :
  read_loop fuel w r self = Some s ->
  _command_queue s = _command_queue self.
Proof.
  revert r self s. induction fuel as [| fuel IH]; intros r self s;
    [discriminate |].
  cbn [read_loop]. pose proof (iteration_queue w r self) as Hiter.
  destruct (iteration w r self) as [[[] r'] s1 | e s1 | s1];
    cbn [final] in Hiter.
  - intros Hloop. apply IH in Hloop. congruence.
  - got_some. exact Hiter.
  - got_some. exact Hiter.
  - got_some. exact Hiter.
Qed.

Lemma handle_connection_queue r w self s :
  handle_connection r w self = Some s ->
  _command_queue s = _command_queue self.
Proof.
  unfold handle_connection.
  destruct (accept_effect w self)
    as (_ & _ & _ & _ & _ & _ & _ & _ & Hq & _).
  destruct (accept w self) as [[] s1 | e s1 | s1]; cbn [final] in Hq.
  - destruct (read_loop _ w r s1) as [s2 |] eqn:Hloop; [| discriminate].
    cbn [option_map]. got_some. apply read_loop_queue in Hloop.
    rewrite <- Hq, <- Hloop. reflexivity.
  - cbn [option_map final]. got_some. exact Hq.
  - cbn [option_map final]. got_some. exact Hq.
Qed.

(** X20.  Commands outlive the connection they were queued for.
    [handle_connection] never touches the command queue, so a command
    that is still queued when a connection ends is there when the next
    one begins: once a new connection is accepted and its first sync byte
    has completed the handshake, the next pass of
    [_process_command_queue] sends it.  Shown for a queued [set_analog]
    command with a join in 1..32768: the pass writes its four bytes to
    the new writer. *)
Theorem queued_commands_survive_reconnect (r : StreamReader)
  (w w' : StreamWriter) (d : rx) (n v now : Z) (queue : list command)
  (self s : CrestronServer) :
  _command_queue self = send_analog n v :: queue -> 1 <= n <= 32768 ->
  handle_connection r w self = Some s ->
  is_closing w' = false -> drain_fails w' = false ->
  _sync_all_joins_callback s <> Some true ->
  rx_byte d = 0xFB -> SYNC_DEBOUNCE < rx_time d ->
  _command_queue s = send_analog n v :: queue /\
  available s = false /\
  exists s1 s2 s3 frame,
    accept w' s = Return tt s1 /\
    iteration w' {| pending := [d]; ending := EOF |} s1
    = Return (true, {| pending := []; ending := EOF |}) s2 /\
    available s2 = true /\
    _process_command_queue now s2 = Return tt s3 /\
    Codec.analog_frame n v = Some frame /\
    wire s3 = wire s2 ++ frame /\ _command_queue s3 = queue.
Proof.
  intros Hq Hn Hs Hopen Hdrain Hhook Hd Hfar.
  pose proof (handle_connection_queue r w self s Hs) as Hkept.
  split; [congruence |].
  assert (Hoff : _available s = false).
  { unfold handle_connection in Hs.
    destruct (match accept w self with
              | Return _ self' => read_loop _ w r self'
              | r0 => Some (final r0)
              end) as [s0 |]; [| discriminate].
    cbn [option_map] in Hs. apply (inj Some) in Hs. subst s.
    apply (cleanup_effect s0). }
  split; [apply unavailable_flag, Hoff |].
  destruct (accept_effect w' s)
    as (Hw1 & _ & Hi1 & Hl1 & _ & _ & _ & _ & Hq1 & Hret1).
  specialize (Hret1 Hdrain).
  set (s1 := final (accept w' s)) in *.
  assert (Hhook1 : _sync_all_joins_callback s1 <> Some true).
  { replace (_sync_all_joins_callback s1) with (_sync_all_joins_callback s);
      [exact Hhook |].
    unfold s1, accept, write_drain. run. rewrite Hdrain. reflexivity. }
  destruct (iteration_first_sync w' {| pending := [d]; ending := EOF |}
              d [] s1 eq_refl Hd Hi1)
    as (Ha2 & _ & _ & _ & Hw2 & _ & _ & Hret2); [rewrite Hl1; lia |].
  specialize (Hret2 Hdrain Hhook1).
  set (s2 := final (iteration w' {| pending := [d]; ending := EOF |} s1))
    in *.
  assert (Hon2 : available s2 = true).
  { unfold available. rewrite Ha2, Hw2, Hw1, Hopen. reflexivity. }
  assert (Hq2 : _command_queue s2 = send_analog n v :: queue).
  { unfold s2. rewrite iteration_queue, Hq1, Hkept. exact Hq. }
  exists s1, s2. eexists. eexists.
  split; [exact Hret1 |]. split; [exact Hret2 |]. split; [exact Hon2 |].
  rewrite (process_runs now s2 (send_analog n v) queue Hon2 Hq2).
  cbn [send_command]. rewrite analog_frame_packs by exact Hn.
  unfold bind.
  rewrite (self_write_drain_ok w')
    by (first [exact Hdrain | cbn; rewrite Hw2; exact Hw1]).
  unfold assign. rewrite let_pair.
  split; [reflexivity |]. split; [reflexivity |].
  split; reflexivity.
Qed.

Lemma queued_commands_survive_reconnect_witness :
  _command_queue hung_up = [send_analog 1 5] /\
  available hung_up = false /\
  exists s1 s2 s3 frame,
    accept open_writer hung_up = Return tt s1 /\
    iteration open_writer
      {| pending := [{| rx_byte := 0xFB; rx_time := 1700000008000000 |}];
         ending := EOF |} s1
    = Return (true, {| pending := []; ending := EOF |}) s2 /\
    available s2 = true /\
    _process_command_queue 1700000008000500 s2 = Return tt s3 /\
    Codec.analog_frame 1 5 = Some frame /\
    wire s3 = wire s2 ++ frame /\ _command_queue s3 = [].
Proof.
  apply (queued_commands_survive_reconnect at_eof open_writer open_writer
           {| rx_byte := 0xFB; rx_time := 1700000008000000 |}
           1 5 1700000008000500 [] waiting hung_up).
  - reflexivity.
  - lia.
  - reflexivity.
  - reflexivity.
  - reflexivity.
  - discriminate.
  - reflexivity.
  - vm_compute. reflexivity.
Defined.
